(** * Video-Clipper-YT: clip geometry and export pipeline (clipper.py)

    A shallow embedding of the pure helpers [sanitize_timecodes] and
    [compute_crop_box] and of the orchestration in [export_vertical_clip],
    with Python floats as IEEE-754 binary64 values ([spec_float] with
    [prec = 53], [emax = 1024]) and Python ints as [Z]; then of
    [download_video] with its progress hook, and of [_update_source] of
    app.py, which calls [get_video_metadata]. *)

From Stdlib Require Import ZArith Bool Lia String Ascii List DecimalString.
From Stdlib Require Import SpecFloat.
From Stdlib Require Import DecimalZ DecimalPos.
Import ListNotations.

Local Open Scope string_scope.
Local Open Scope Z_scope.

(** ** Python floats: binary64 *)

Module PyFloat.

Definition prec : Z := 53.
Definition emax : Z := 1024.

Definition float : Type := spec_float.

Definition add : float -> float -> float := SFadd prec emax.
Definition sub : float -> float -> float := SFsub prec emax.
Definition mul : float -> float -> float := SFmul prec emax.
Definition div : float -> float -> float := SFdiv prec emax.
Definition abs : float -> float := SFabs.

Definition ltb : float -> float -> bool := SFltb.
Definition leb : float -> float -> bool := SFleb.
Definition eqb : float -> float -> bool := SFeqb.
Definition gtb (x y : float) : bool := SFltb y x.
Definition geb (x y : float) : bool := SFleb y x.

Definition is_nan (x : float) : bool :=
  match x with S754_nan => true | _ => false end.
Definition is_inf (x : float) : bool :=
  match x with S754_infinity _ => true | _ => false end.
Definition is_finite (x : float) : bool :=
  match x with S754_zero _ | S754_finite _ _ _ => true | _ => false end.

(** The sign bit; [false] for NaN. *)
Definition signbit (x : float) : bool :=
  match x with
  | S754_zero s | S754_infinity s | S754_finite s _ _ => s
  | S754_nan => false
  end.

(** A well-formed binary64 value: the mantissa is canonical for its exponent. *)
Definition valid (x : float) : bool := valid_binary prec emax x.

(** The double nearest to the integer [n] (ties to even); an infinity when
    [n] is out of range. *)
Definition of_Z (n : Z) : float := binary_normalize prec emax n 0 false.

(** The double nearest to the quotient [p / q] of two integers, [q > 0]
    (ties to even): CPython's int/int true division, and what a decimal
    literal such as [1e-03] or [0.5] denotes. *)
Definition of_ratio (p : Z) (q : positive) : float :=
  match p with
  | Z0 => S754_zero false
  | Zpos m => div (S754_finite false m 0) (S754_finite false q 0)
  | Zneg m => div (S754_finite true m 0) (S754_finite false q 0)
  end.

Definition zero : float := S754_zero false.

(** [x] is not NaN and carries the sign bit [s]. *)
Definition has_sign (s : bool) (x : float) : Prop :=
  is_nan x = false /\ signbit x = s.

End PyFloat.

Declare Scope pyfloat_scope.
Delimit Scope pyfloat_scope with pf.
Bind Scope pyfloat_scope with PyFloat.float.
Infix "+" := PyFloat.add : pyfloat_scope.
Infix "-" := PyFloat.sub : pyfloat_scope.
Infix "*" := PyFloat.mul : pyfloat_scope.
Infix "/" := PyFloat.div : pyfloat_scope.
Infix "<?" := PyFloat.ltb : pyfloat_scope.
Infix "<=?" := PyFloat.leb : pyfloat_scope.
Infix ">?" := PyFloat.gtb : pyfloat_scope.
Infix ">=?" := PyFloat.geb : pyfloat_scope.
Infix "=?" := PyFloat.eqb : pyfloat_scope.

(** ** Exceptions and results *)

(** The exception classes of clipper.py ([ProcessingError], [DownloadError])
    and the built-in ones its calls can raise; each carries its message. *)
Inductive exn : Type :=
  | ProcessingError (msg : string)
  | DownloadError (msg : string)
  | ValueError (msg : string)
  | OverflowError (msg : string)
  | ZeroDivisionError (msg : string)
  | OSError (msg : string)
  | RuntimeError (msg : string).

(** [str(exc)]: the message of an exception. *)
Definition exn_str (e : exn) : string :=
  match e with
  | ProcessingError m | DownloadError m | ValueError m | OverflowError m
  | ZeroDivisionError m | OSError m | RuntimeError m => m
  end.

Inductive result (A : Type) : Type :=
  | Ok (a : A)
  | Err (e : exn).
Arguments Ok {A} a.
Arguments Err {A} e.

Definition bind {A B : Type} (r : result A) (k : A -> result B) : result B :=
  match r with
  | Ok a => k a
  | Err e => Err e
  end.

Notation "x <- c ;; k" := (bind c (fun x => k))
  (at level 61, c at next level, right associativity).

(** The names section 7 of the specification gives to the failures of the
    validator and of the crop geometry; in the code each is a
    [ProcessingError] told apart by its message. *)
Definition InvalidDuration : exn := ProcessingError "Video duration is zero.".
Definition SelectionTooShort : exn :=
  ProcessingError "Clip selection is too short. Increase the end time.".
Definition StartOutOfBounds : exn :=
  ProcessingError "Start time falls outside the video.".
Definition EndNotAfterStart : exn :=
  ProcessingError "End time must be greater than start time.".
Definition InvalidDimensions : exn :=
  ProcessingError "Invalid dimensions for crop computation.".

(** ** The Python built-ins the helpers call *)

Module Py.
Import PyFloat.

(** [max(a, b)]: [b] replaces [a] only when [b > a]. *)
Definition max (a b : float) : float := if (b >? a)%pf then b else a.

(** [min(a, b)]: [b] replaces [a] only when [b < a]. *)
Definition min (a b : float) : float := if (b <? a)%pf then b else a.

(** The integer nearest to [m * 2^e] for [0 <= m], ties to even. *)
Definition nearest_even (m e : Z) : Z :=
  if 0 <=? e then m * 2 ^ e
  else
    let d := 2 ^ (- e) in
    let q := m / d in
    match 2 * (m mod d) ?= d with
    | Lt => q
    | Gt => q + 1
    | Eq => if Z.even q then q else q + 1
    end.

(** [round(x, ndigits)] on a float, [0 <= ndigits]: the exact value of [x] is
    rounded half-even to [ndigits] decimals and the double nearest to that
    decimal is returned; zeros, infinities and NaN are returned as they are.
    (CPython raises OverflowError when the decimal is beyond the largest
    double; a double that large is an integer and rounds to itself.) *)
Definition round_ndigits (x : float) (ndigits : Z) : float :=
  match x with
  | S754_finite s m e =>
      match nearest_even (Zpos m * 10 ^ ndigits) e with
      | Zpos n => div (S754_finite s n 0) (S754_finite false (Z.to_pos (10 ^ ndigits)) 0)
      | _ => S754_zero s
      end
  | _ => x
  end.

(** [round(x)] on a float: the nearest integer, ties to even. *)
Definition round (x : float) : result Z :=
  match x with
  | S754_nan => Err (ValueError "cannot convert float NaN to integer")
  | S754_infinity _ => Err (OverflowError "cannot convert float infinity to integer")
  | S754_zero _ => Ok 0
  | S754_finite s m e => Ok (cond_Zopp s (nearest_even (Zpos m) e))
  end.

(** [int(x)] on a float: truncation towards zero. *)
Definition int (x : float) : result Z :=
  match x with
  | S754_nan => Err (ValueError "cannot convert float NaN to integer")
  | S754_infinity _ => Err (OverflowError "cannot convert float infinity to integer")
  | S754_zero _ => Ok 0
  | S754_finite s m e => Ok (cond_Zopp s (Z.shiftl (Zpos m) e))
  end.

(** [math.floor(x)]: the greatest integer at most [x]. *)
Definition floor (x : float) : result Z :=
  match x with
  | S754_nan => Err (ValueError "cannot convert float NaN to integer")
  | S754_infinity _ => Err (OverflowError "cannot convert float infinity to integer")
  | S754_zero _ => Ok 0
  | S754_finite s m e => Ok (Z.shiftl (cond_Zopp s (Zpos m)) e)
  end.

(** [float(n)] on an int. *)
Definition float_of_int (n : Z) : result float :=
  let x := of_Z n in
  if is_inf x then Err (OverflowError "int too large to convert to float")
  else Ok x.

(** [a / b] on two ints: the correctly rounded quotient. *)
Definition int_truediv (a b : Z) : result float :=
  match b with
  | Z0 => Err (ZeroDivisionError "division by zero")
  | Zpos q =>
      let x := of_ratio a q in
      if is_inf x then Err (OverflowError "integer division result too large for a float")
      else Ok x
  | Zneg q =>
      let x := match a with
               | Z0 => S754_zero true
               | _ => of_ratio (- a) q
               end in
      if is_inf x then Err (OverflowError "integer division result too large for a float")
      else Ok x
  end.

(** [a / b] on two floats. *)
Definition float_truediv (a b : float) : result float :=
  if (b =? zero)%pf then Err (ZeroDivisionError "float division by zero")
  else Ok (a / b)%pf.

(** [math.isclose(a, b, rel_tol=rel_tol)], with [abs_tol] left at 0.0 and
    [0 <= rel_tol]: equal values are close, an infinity is close only to
    itself, otherwise the difference is compared with [rel_tol] times the
    magnitude of either argument. *)
Definition isclose (a b rel_tol : float) : bool :=
  if (a =? b)%pf then true
  else if is_inf a || is_inf b then false
  else
    let diff := abs (b - a)%pf in
    (diff <=? abs (rel_tol * b))%pf || (diff <=? abs (rel_tol * a))%pf
    || (diff <=? zero)%pf.

End Py.

(** ** clipper.py: the timecode validator *)

Import PyFloat.

(** The default [min_length = 0.5]. *)
Definition default_min_length : float := Eval vm_compute in of_ratio 1 2.

(** [sanitize_timecodes(start, end, duration, min_length)] (lines 139-157). *)
Definition sanitize_timecodes (start end_ duration min_length : float)
  : result (float * float) :=
  if (duration <=? zero)%pf then Err InvalidDuration
  else
    let start := Py.max zero start in
    let end_ := Py.min end_ duration in
    if (end_ - start <? min_length)%pf then Err SelectionTooShort
    else if (start >=? duration)%pf then Err StartOutOfBounds
    else if (end_ <=? start)%pf then Err EndNotAfterStart
    else Ok (Py.round_ndigits start 3, Py.round_ndigits end_ 3).

(** The TimeWindow invariant of the specification, read on doubles:
    [0 <= start < end <= duration] and [end - start >= min_length]. *)
Definition time_window_inv (start end_ duration min_length : float) : bool :=
  (zero <=? start)%pf && (start <? end_)%pf && (end_ <=? duration)%pf
  && (min_length <=? end_ - start)%pf.

(** Every failure of the call is [InvalidDuration] or [SelectionTooShort]. *)
Definition only_duration_or_length_failures
    (start end_ duration min_length : float) : Prop :=
  forall e, sanitize_timecodes start end_ duration min_length = Err e ->
            e = InvalidDuration \/ e = SelectionTooShort.

(** ** clipper.py: the crop geometry *)

Record CropBox : Type := mkCropBox { x1 : Z; y1 : Z; x2 : Z; y2 : Z }.

Definition box_width (b : CropBox) : Z := x2 b - x1 b.
Definition box_height (b : CropBox) : Z := y2 b - y1 b.

(** The literal [1e-03]. *)
Definition rel_tol_1e_3 : float := Eval vm_compute in of_ratio 1 1000.

(** The CropBox invariant of the specification for a source frame of
    [width] by [height] pixels. *)
Definition crop_box_inv (b : CropBox) (width height : Z) : Prop :=
  0 <= x1 b < x2 b /\ x2 b <= width /\ 0 <= y1 b < y2 b /\ y2 b <= height.

(** [compute_crop_box(width, height, target_width, target_height)]
    (lines 160-179). *)
Definition compute_crop_box (width height target_width target_height : Z)
  : result CropBox :=
  if (width <=? 0) || (height <=? 0) || (target_width <=? 0) || (target_height <=? 0)
  then Err InvalidDimensions
  else
    src_ratio <- Py.int_truediv width height ;;
    dest_ratio <- Py.int_truediv target_width target_height ;;
    if Py.isclose src_ratio dest_ratio rel_tol_1e_3
    then Ok (mkCropBox 0 0 width height)
    else if (src_ratio >? dest_ratio)%pf then
      h <- Py.float_of_int height ;;
      new_width <- Py.round (h * dest_ratio)%pf ;;
      let offset_x := (width - new_width) / 2 in
      Ok (mkCropBox offset_x 0 (offset_x + new_width) height)
    else
      w <- Py.float_of_int width ;;
      q <- Py.float_truediv w dest_ratio ;;
      new_height <- Py.round q ;;
      let offset_y := (height - new_height) / 2 in
      Ok (mkCropBox 0 offset_y width (offset_y + new_height)).


(** ** The world around an export: file system and media engine *)

(** The state an export runs in: the paths of the files that exist, and the
    internal state of the media engine (its open readers and the like). *)
Record World (E : Type) : Type := mkWorld { files : list string; engine : E }.
Arguments mkWorld {E} files engine.
Arguments files {E} w.
Arguments engine {E} w.

(** A computation that may raise and may change the world; the changes made
    before an exception is raised are kept. *)
Definition M (E A : Type) : Type := World E -> result A * World E.

Definition ret {E A : Type} (a : A) : M E A := fun w => (Ok a, w).
Definition lift {E A : Type} (r : result A) : M E A := fun w => (r, w).

Definition mbind {E A B : Type} (c : M E A) (k : A -> M E B) : M E B :=
  fun w => match c w with
           | (Ok a, w') => k a w'
           | (Err e, w') => (Err e, w')
           end.

Notation "x <~ c ;; k" := (mbind c (fun x => k))
  (at level 61, c at next level, right associativity).
Notation "c ;;; k" := (mbind c (fun _ => k))
  (at level 61, right associativity).

(** [path.exists()]. *)
Definition file_exists {E : Type} (p : string) (w : World E) : bool :=
  existsb (String.eqb p) (files w).

(** [with contextlib.suppress(FileNotFoundError): Path(p).unlink()]: the file
    is removed when it is there, and nothing happens otherwise. *)
Definition unlink_if_exists {E : Type} (p : string) (w : World E) : World E :=
  mkWorld (filter (fun q => negb (String.eqb p q)) (files w)) (engine w).

(** [str(n)] for an int. *)
Definition str_of_int (n : Z) : string := NilZero.string_of_int (Z.to_int n).

(** The keyword arguments of [write_videofile]. *)
Record WriteArgs : Type := mkWriteArgs {
  codec : string;
  audio_codec : string;
  wa_audio_bitrate : string;
  wa_fps : float;
  wa_preset : string;
  threads : Z;
  temp_audiofile : string;
  remove_temp : bool
}.

(** What clipper.py asks of its collaborators: pathlib and the operating
    system, and MoviePy's clips, over a type [Clip] of clip objects. Closing
    a clip touches the engine's state only. *)
Record Env (E Clip : Type) : Type := mkEnv {
  path_stem : string -> string;
  path_join : string -> string -> string;
  mkdir_parents : string -> M E unit;
  stat_size : string -> M E Z;
  named_temporary_file : string -> M E string;
  cpu_count : option Z;
  video_file_clip : string -> M E Clip;
  clip_duration : Clip -> option float;
  clip_fps : Clip -> option float;
  clip_w : Clip -> Z;
  clip_h : Clip -> Z;
  clip_subclip : Clip -> float -> float -> result Clip;
  clip_crop : Clip -> Z -> Z -> Z -> Z -> result Clip;
  clip_resize : Clip -> Z * Z -> result Clip;
  write_videofile : Clip -> string -> WriteArgs -> M E unit;
  clip_close : Clip -> E -> result unit * E
}.
Arguments path_stem {E Clip} e.
Arguments path_join {E Clip} e.
Arguments mkdir_parents {E Clip} e.
Arguments stat_size {E Clip} e.
Arguments named_temporary_file {E Clip} e.
Arguments cpu_count {E Clip} e.
Arguments video_file_clip {E Clip} e.
Arguments clip_duration {E Clip} e.
Arguments clip_fps {E Clip} e.
Arguments clip_w {E Clip} e.
Arguments clip_h {E Clip} e.
Arguments clip_subclip {E Clip} e.
Arguments clip_crop {E Clip} e.
Arguments clip_resize {E Clip} e.
Arguments write_videofile {E Clip} e.
Arguments clip_close {E Clip} e.

(** The dict [get_video_metadata] returns. *)
Record Metadata : Type := mkMetadata {
  md_duration : float;
  md_fps : option float;
  md_width : Z;
  md_height : Z;
  md_filesize : Z
}.

(** What an export has in hand when it reaches the encoder. *)
Record Job (Clip : Type) : Type := mkJob {
  job_subclip : Clip;
  job_processed : Clip;
  job_output_path : string;
  job_args : WriteArgs
}.
Arguments mkJob {Clip}.
Arguments job_subclip {Clip} j.
Arguments job_processed {Clip} j.
Arguments job_output_path {Clip} j.
Arguments job_args {Clip} j.

(** ** clipper.py: metadata and export *)

Section Clipper.
Context {E Clip : Type} (env : Env E Clip).

(** [clip.close()]. *)
Definition close (clip : Clip) : M E unit :=
  fun w => let (r, s) := clip_close env clip (engine w) in (r, mkWorld (files w) s).

(** [with contextlib.suppress(Exception): clip.close()]. *)
Definition close_suppressed (clip : Clip) (w : World E) : World E :=
  snd (close clip w).

(** [with VideoFileClip(path) as clip: body]: the clip is closed when the body
    returns and when it raises; an exception raised by the closing itself
    takes the place of the body's outcome. *)
Definition with_video_file_clip {A : Type} (path : string) (body : Clip -> M E A)
  : M E A :=
  clip <~ video_file_clip env path ;;
  fun w =>
    let (r, w1) := body clip w in
    match close clip w1 with
    | (Ok _, w2) => (r, w2)
    | (Err e, w2) => (Err e, w2)
    end.

(** Truth value of an optional float: [None] and zero are false. *)
Definition truthy (x : option float) : bool :=
  match x with
  | Some v => negb (v =? zero)%pf
  | None => false
  end.

(** [x or default] for an optional float [x]. *)
Definition or_else (x : option float) (default : float) : float :=
  match x with
  | Some v => if truthy x then v else default
  | None => default
  end.

(** [get_video_metadata(path)] (lines 119-136): only an [OSError] of the
    probe is wrapped. *)
Definition get_video_metadata (path : string) : M E Metadata :=
  fun w =>
    if negb (file_exists path w)
    then (Err (ProcessingError ("Video not found at " ++ path)%string), w)
    else
      match with_video_file_clip path (fun clip =>
              size <~ stat_size env path ;;
              ret (mkMetadata
                     (or_else (clip_duration env clip) zero)
                     (if truthy (clip_fps env clip) then clip_fps env clip else None)
                     (clip_w env clip) (clip_h env clip) size)) w with
      | (Err (OSError msg), w') =>
          (Err (ProcessingError ("Unable to read video metadata: " ++ msg)%string), w')
      | outcome => outcome
      end.

(** [_apply_vertical_transform(clip, resolution)] (lines 182-197). *)
Definition _apply_vertical_transform (clip : Clip) (resolution : Z * Z) : result Clip :=
  let (target_width, target_height) := resolution in
  crop_box <- compute_crop_box (clip_w env clip) (clip_h env clip)
                target_width target_height ;;
  clip' <- (if negb (box_width crop_box =? clip_w env clip)
               || negb (box_height crop_box =? clip_h env clip)
            then clip_crop env clip (x1 crop_box) (y1 crop_box) (x2 crop_box) (y2 crop_box)
            else Ok clip) ;;
  clip_resize env clip' resolution.

(** The name of the output file (line 222). *)
Definition output_filename (source : string) (start_sec end_sec : Z) : string :=
  ("short_" ++ path_stem env source ++ "_" ++ str_of_int start_sec ++ "_"
   ++ str_of_int end_sec ++ ".mp4")%string.

(** Lines 218-226 of [export_vertical_clip], inside the [with]: trim,
    transform, pick the frame rate, name the output and create the temporary
    audio file. *)
Definition prepare_job (clip : Clip) (source : string)
    (trimmed_start trimmed_end : float) (output_dir : string) (resolution : Z * Z)
    (preset audio_bitrate : string) : M E (Job Clip) :=
  subclip <~ lift (clip_subclip env clip trimmed_start trimmed_end) ;;
  processed <~ lift (_apply_vertical_transform subclip resolution) ;;
  let fps := or_else (clip_fps env processed) (or_else (clip_fps env clip) (of_Z 30)) in
  start_sec <~ lift (Py.int trimmed_start) ;;
  end_sec <~ lift (Py.int trimmed_end) ;;
  let output_path := path_join env output_dir (output_filename source start_sec end_sec) in
  temp_audio <~ named_temporary_file env ".m4a" ;;
  ret (mkJob subclip processed output_path
         (mkWriteArgs "libx264" "aac" audio_bitrate fps preset
            (Z.min 4 (match cpu_count env with
                      | Some n => if n =? 0 then 1 else n
                      | None => 1
                      end))
            temp_audio true)).

(** Lines 228-250: the [try ... except Exception ... finally] around
    [write_videofile]. A failure of the encoder is wrapped in a
    [ProcessingError]; on both paths the two clips are closed and the
    temporary audio file is removed. *)
Definition encode_and_cleanup (job : Job Clip) : M E unit :=
  fun w =>
    let (r, w1) := write_videofile env (job_processed job) (job_output_path job)
                     (job_args job) w in
    let r' := match r with
              | Ok u => Ok u
              | Err exc =>
                  Err (ProcessingError ("Unable to export clip: " ++ exn_str exc)%string)
              end in
    let w2 := close_suppressed (job_processed job) w1 in
    let w3 := close_suppressed (job_subclip job) w2 in
    (r', unlink_if_exists (temp_audiofile (job_args job)) w3).

(** The world the [finally] clause makes of the world the encoder left. *)
Definition after_cleanup (job : Job Clip) (w : World E) : World E :=
  unlink_if_exists (temp_audiofile (job_args job))
    (close_suppressed (job_subclip job)
       (close_suppressed (job_processed job) w)).

(** [export_vertical_clip(source, start, end, output_dir, resolution, preset,
    audio_bitrate)] (lines 200-252). *)
Definition export_vertical_clip (source : string) (start end_ : float)
    (output_dir : string) (resolution : Z * Z) (preset audio_bitrate : string)
  : M E string :=
  mkdir_parents env output_dir ;;;
  metadata <~ get_video_metadata source ;;
  times <~ lift (sanitize_timecodes start end_ (md_duration metadata) default_min_length) ;;
  with_video_file_clip source (fun clip =>
    job <~ prepare_job clip source (fst times) (snd times) output_dir resolution
             preset audio_bitrate ;;
    encode_and_cleanup job ;;;
    ret (job_output_path job)).

End Clipper.

(** ** Concrete inputs and a small media engine *)

Module Demo.

(** The doubles the literals [10.0], [10.1], [20.0], [100.0], [120.0],
    [0.25], [10.0006], [10.001], [25.1] and [-5.0] denote. *)
Definition f10 : float := Eval vm_compute in of_Z 10.
Definition f10_1 : float := Eval vm_compute in of_ratio 101 10.
Definition f20 : float := Eval vm_compute in of_Z 20.
Definition f100 : float := Eval vm_compute in of_Z 100.
Definition f120 : float := Eval vm_compute in of_Z 120.
Definition f0_25 : float := Eval vm_compute in of_ratio 1 4.
Definition f10_0006 : float := Eval vm_compute in of_ratio 100006 10000.
Definition f10_001 : float := Eval vm_compute in of_ratio 10001 1000.
Definition f25_1 : float := Eval vm_compute in of_ratio 251 10.
Definition minus5 : float := Eval vm_compute in of_Z (-5).

(** A clip of the engine below: its attributes. *)
Record ToyClip : Type := mkToyClip {
  tc_duration : float;
  tc_fps : option float;
  tc_w : Z;
  tc_h : Z
}.

(** An engine that counts its open readers. Every source is a 100-second
    1920x1080 clip at 30 frames per second; the encoder creates the output
    file and then, when [encoder_ok] is false, fails. *)
Definition toy_env (encoder_ok : bool) : Env nat ToyClip :=
  mkEnv nat ToyClip
    (fun p => "video")
    (fun d f => (d ++ "/" ++ f)%string)
    (fun d => ret tt)
    (fun p => ret 1000)
    (fun suffix w =>
       (Ok ("/tmp/tmp0" ++ suffix)%string,
        mkWorld (("/tmp/tmp0" ++ suffix)%string :: files w) (engine w)))
    (Some 8)
    (fun p w => (Ok (mkToyClip f100 (Some (of_Z 30)) 1920 1080),
                 mkWorld (files w) (S (engine w))))
    (fun c => Some (tc_duration c)) tc_fps tc_w tc_h
    (fun c s e => Ok (mkToyClip (e - s)%pf (tc_fps c) (tc_w c) (tc_h c)))
    (fun c left top right bottom =>
       Ok (mkToyClip (tc_duration c) (tc_fps c) (right - left) (bottom - top)))
    (fun c r => Ok (mkToyClip (tc_duration c) (tc_fps c) (fst r) (snd r)))
    (fun c out args w =>
       (if encoder_ok then Ok tt else Err (RuntimeError "ffmpeg exited with status 1"),
        mkWorld (out :: files w) (engine w)))
    (fun c s => (Ok tt, Nat.pred s)).

(** A world where only the source file exists. *)
Definition w0 : World nat := mkWorld ["video.mp4"] 0%nat.

End Demo.

(** ** clipper.py: the progress hook of [download_video] *)

(** A Python number: an int or a float. *)
Inductive pynum : Type :=
  | PInt (n : Z)
  | PFloat (x : float).








(** ** app.py: choosing a source *)

(** A dict with string keys, as the list of its items. *)
Definition dict (V : Type) : Type := list (string * V).

(** [d.get(k)]. *)
Fixpoint dict_get {V : Type} (d : dict V) (k : string) : option V :=
  match d with
  | [] => None
  | (k', v) :: d' => if String.eqb k k' then Some v else dict_get d' k
  end.

(** [d[k] = v]. *)
Fixpoint dict_set {V : Type} (d : dict V) (k : string) (v : V) : dict V :=
  match d with
  | [] => [(k, v)]
  | (k', v') :: d' =>
      if String.eqb k k' then (k, v) :: d' else (k', v') :: dict_set d' k v
  end.

(** [d.pop(k, None)]. *)
Definition dict_pop {V : Type} (d : dict V) (k : string) : dict V :=
  filter (fun item => negb (String.eqb k (fst item))) d.

(** The values app.py keeps in [st.session_state] for a source. *)
Inductive sval : Type :=
  | SStr (s : string)
  | SMeta (m : Metadata)
  | SRange (r : float * float).

(** The literals [0.5], [0.7] and [30.0]. *)
Definition lit_0_5 : float := Eval vm_compute in of_ratio 1 2.
Definition lit_0_7 : float := Eval vm_compute in of_ratio 7 10.
Definition lit_30 : float := Eval vm_compute in of_Z 30.

(** Lines 193-201 of [_update_source]: the clip range a newly chosen source
    starts with, from its duration. *)
Definition initial_clip_range (duration : float) : float * float :=
  if (duration <=? zero)%pf then (zero, lit_0_5)
  else
    let default_end := Py.min duration lit_30 in
    let default_end :=
      if (duration >=? lit_0_7)%pf && (default_end <? lit_0_7)%pf
      then Py.min duration lit_0_7 else default_end in
    let default_end :=
      if (duration >=? lit_0_5)%pf && (default_end <? lit_0_5)%pf
      then lit_0_5 else default_end in
    (zero, Py.min duration default_end).

(** [_reset_generated_clip()] (lines 183-184). *)
Definition _reset_generated_clip (session : dict sval) : dict sval :=
  dict_pop session "generated_clip".

Section App.
Context {E Clip : Type} (env : Env E Clip).

(** [_update_source(path, label)] (lines 187-202) on the session state and
    the world: the outcome, the session state and the world it leaves. *)
Definition _update_source (path label : string) (session : dict sval) (w : World E)
  : result unit * dict sval * World E :=
  match get_video_metadata env path w with
  | (Err e, w') => (Err e, session, w')
  | (Ok metadata, w') =>
      let session := dict_set session "source_path" (SStr path) in
      let session := dict_set session "source_title" (SStr label) in
      let session := dict_set session "source_metadata" (SMeta metadata) in
      let duration := or_else (Some (md_duration metadata)) zero in
      let session := dict_set session "clip_range" (SRange (initial_clip_range duration)) in
      (Ok tt, _reset_generated_clip session, w')
  end.

End App.

(** ** clipper.py: [download_video] *)

(** The keys of yt-dlp's info dict that [download_video] reads; [None]
    stands for a key that is missing, and for [_filename] and [ext] also
    for one that is [None]. *)
Record YdlInfo : Type := mkYdlInfo {
  info_filename : option string;
  info_ext : option string;
  info_title : option string;
  info_duration : option pynum;
  info_thumbnail : option string
}.

(** [DownloadResult]. *)
Record DownloadResult : Type := mkDownloadResult {
  dr_path : string;
  dr_title : string;
  dr_duration : option pynum;
  dr_thumbnail : option string
}.

(** What [download_video] asks of yt-dlp and of pathlib.
    [youtube_dl_extract_info url outtmpl hooked] is the whole [with] block:
    building [YoutubeDL(ydl_opts)] with the given output template, with
    the progress hook installed when [hooked], [extract_info(url,
    download=True)] and leaving the block. *)
Record Ydl (E : Type) : Type := mkYdl {
  youtube_dl_extract_info : string -> string -> bool -> M E YdlInfo;
  prepare_filename : YdlInfo -> M E string;
  path_suffix : string -> string;
  path_with_suffix : string -> string -> result string
}.
Arguments youtube_dl_extract_info {E} y.
Arguments prepare_filename {E} y.
Arguments path_suffix {E} y.
Arguments path_with_suffix {E} y.

(** Truth value of an optional string: [None] and the empty string are
    false. *)
Definition str_truthy (x : option string) : bool :=
  match x with
  | Some s => negb (String.eqb s "")
  | None => false
  end.

Section Download.
Context {E Clip : Type} (env : Env E Clip) (ydl : Ydl E).

(** [download_video(url, output_dir, progress_callback)] (lines 60-116);
    [has_callback] is the truth value of [progress_callback]. *)
Definition download_video (url output_dir : string) (has_callback : bool)
  : M E DownloadResult :=
  mkdir_parents env output_dir ;;;
  info <~ (fun w =>
             match youtube_dl_extract_info ydl url
                     (path_join env output_dir "%(id)s.%(ext)s") has_callback w with
             | (Err exc, w') => (Err (DownloadError (exn_str exc)), w')
             | outcome => outcome
             end) ;;
  filepath <~ (if str_truthy (info_filename info)
               then ret (match info_filename info with Some f => f | None => "" end)
               else prepare_filename ydl info) ;;
  filepath <~ (if negb (String.eqb (path_suffix ydl filepath) ".mp4")
                  && str_truthy (info_ext info)
               then lift (path_with_suffix ydl filepath
                            ("." ++ match info_ext info with Some ext => ext | None => "" end))
               else ret filepath) ;;
  ret (mkDownloadResult filepath
         (match info_title info with
          | Some t => t
          | None => path_stem env filepath
          end)
         (info_duration info) (info_thumbnail info)).

End Download.

(** ** Concrete inputs for the download and the application *)

Module DemoApp.


(** A yt-dlp that reports the file it merged as downloads/abc.webm with
    extension mp4, or fails when [ok] is false. *)
Definition toy_ydl (ok : bool) : Ydl nat :=
  mkYdl nat
    (fun url outtmpl hooked w =>
       if ok
       then (Ok (mkYdlInfo (Some "downloads/abc.webm") (Some "mp4") None
                   (Some (PInt 100)) None),
             mkWorld ("downloads/abc.mp4" :: files w) (engine w))
       else (Err (RuntimeError "Video unavailable"), w))
    (fun info => ret "downloads/abc.mp4")
    (fun p => if String.eqb p "downloads/abc.mp4" then ".mp4" else ".webm")
    (fun p suffix => Ok ("downloads/abc" ++ suffix)%string).

(** A yt-dlp that reports a file that is already an MP4. *)
Definition toy_ydl_mp4 : Ydl nat :=
  mkYdl nat
    (fun url outtmpl hooked w =>
       (Ok (mkYdlInfo (Some "downloads/abc.mp4") (Some "mp4") (Some "A title")
              (Some (PInt 100)) None),
        mkWorld ("downloads/abc.mp4" :: files w) (engine w)))
    (fun info => ret "downloads/abc.mp4")
    (fun p => if String.eqb p "downloads/abc.mp4" then ".mp4" else ".webm")
    (fun p suffix => Ok ("downloads/abc" ++ suffix)%string).

(** A file system that cannot create the download directory. *)
Definition readonly_env : Env nat Demo.ToyClip :=
  mkEnv nat Demo.ToyClip
    (path_stem (Demo.toy_env true)) (path_join (Demo.toy_env true))
    (fun d => lift (Err (OSError "Read-only file system")))
    (stat_size (Demo.toy_env true)) (named_temporary_file (Demo.toy_env true))
    (cpu_count (Demo.toy_env true)) (video_file_clip (Demo.toy_env true))
    (clip_duration (Demo.toy_env true)) (clip_fps (Demo.toy_env true))
    (clip_w (Demo.toy_env true)) (clip_h (Demo.toy_env true))
    (clip_subclip (Demo.toy_env true)) (clip_crop (Demo.toy_env true))
    (clip_resize (Demo.toy_env true)) (write_videofile (Demo.toy_env true))
    (clip_close (Demo.toy_env true)).

(** A session that holds a clip generated from an earlier source. *)
Definition session0 : dict sval :=
  [("generated_clip", SStr "out/short_old_0_30.mp4"); ("theme", SStr "dark")].

(** A clip that is already 1080x1920. *)
Definition vertical_clip : Demo.ToyClip := Demo.mkToyClip Demo.f10 None 1080 1920.

End DemoApp.

(** ** Facts about binary64 comparison *)

Module FloatFacts.
Import PyFloat.

(** [SFcompare] orders mantissas with [Pos.compare_cont Eq]: show it as
    [Pos.compare], in the goal and in the hypotheses. *)
Ltac fold_pos_compare :=
  repeat match goal with
    | |- context [Pos.compare_cont Eq ?a ?b] =>
        change (Pos.compare_cont Eq a b) with (Pos.compare a b)
    | H : context [Pos.compare_cont Eq ?a ?b] |- _ =>
        change (Pos.compare_cont Eq a b) with (Pos.compare a b) in H
    end.

(** Swapping the arguments of a comparison reverses its outcome. *)
Lemma compare_swap (x y : float) (c : comparison) :
  SFcompare x y = Some c -> SFcompare y x = Some (CompOpp c).
Proof.
  destruct x as [sx|sx| |sx mx ex], y as [sy|sy| |sy my ey]; simpl;
    try discriminate;
    try (destruct sx); try (destruct sy); simpl;
    try (intros [= <-]; reflexivity).
  all: fold_pos_compare;
    rewrite (Z.compare_antisym ex ey), (Pos.compare_antisym mx my);
    intros [= <-]; destruct (ex ?= ey); simpl; try reflexivity;
    destruct (mx ?= my)%positive; reflexivity.
Qed.

(** A value that is not NaN compares equal to itself. *)
Lemma compare_refl (x : float) : is_nan x = false -> SFcompare x x = Some Eq.
Proof.
  destruct x as [s|s| |s m e]; simpl; try discriminate; intros _;
    destruct s; try reflexivity;
    fold_pos_compare; rewrite Z.compare_refl, Pos.compare_refl; reflexivity.
Qed.

(** Two values that are not NaN are comparable. *)
Lemma compare_total (x y : float) :
  is_nan x = false -> is_nan y = false -> exists c, SFcompare x y = Some c.
Proof.
  destruct x, y; simpl; try discriminate; intros _ _; eexists; reflexivity.
Qed.

(** [<] and [<=] compose. *)
Lemma compare_lt_le_trans (x y z : float) (c : comparison) :
  SFcompare x y = Some Lt -> SFcompare y z = Some c -> c <> Gt ->
  SFcompare x z = Some Lt.
Proof.
  destruct x as [sx|sx| |sx mx ex], y as [sy|sy| |sy my ey], z as [sz|sz| |sz mz ez];
    simpl; try discriminate;
    try (destruct sx); try (destruct sy); try (destruct sz); simpl;
    try discriminate; try reflexivity;
    try (intros _ [= <-] H; congruence);
    try (intros [= H]; congruence).
  all: fold_pos_compare; intros [= Hxy] [= Hyz] Hc; f_equal;
    destruct (Z.compare_spec ex ey), (Z.compare_spec ey ez), (Z.compare_spec ex ez);
    try discriminate; try lia; try congruence; subst;
    destruct (Pos.compare_spec mx my), (Pos.compare_spec my mz), (Pos.compare_spec mx mz);
    simpl in *; try discriminate; try lia; try congruence.
Qed.

(** *** Rounding never produces NaN and keeps the sign it is given *)

Lemma iter_pos_invariant {A : Type} (P : A -> Prop) (f : A -> A) :
  (forall a, P a -> P (f a)) -> forall n a, P a -> P (iter_pos f n a).
Proof.
  intros Hf; induction n as [n IH|n IH|]; intros a Ha; simpl; auto.
Qed.

Lemma shr_1_nonneg (r : shr_record) : 0 <= shr_m r -> 0 <= shr_m (shr_1 r).
Proof.
  destruct r as [m r s]; simpl; intros Hm.
  destruct m as [|[p|p|]|p]; simpl; lia.
Qed.

Lemma shr_nonneg (r : shr_record) (e n : Z) :
  0 <= shr_m r -> 0 <= shr_m (fst (shr r e n)).
Proof.
  intros Hr; destruct n as [|p|p]; simpl; trivial.
  apply (iter_pos_invariant (fun r => 0 <= shr_m r)); auto using shr_1_nonneg.
Qed.

Lemma shr_record_of_loc_m (m : Z) (l : location) : shr_m (shr_record_of_loc m l) = m.
Proof. destruct l as [|[ | | ]]; reflexivity. Qed.

Lemma shr_fexp_nonneg (m e : Z) (l : location) :
  0 <= m -> 0 <= shr_m (fst (shr_fexp prec emax m e l)).
Proof.
  intros Hm; unfold shr_fexp; apply shr_nonneg.
  rewrite shr_record_of_loc_m; exact Hm.
Qed.

Lemma round_nearest_even_ge (m : Z) (l : location) : m <= round_nearest_even m l.
Proof.
  destruct l as [|[ | | ]]; simpl; try lia.
  destruct (Z.even m); lia.
Qed.

Lemma binary_round_aux_sign (s : bool) (m e : Z) (l : location) :
  0 <= m -> has_sign s (binary_round_aux prec emax s m e l).
Proof.
  intros Hm; unfold binary_round_aux.
  pose proof (shr_fexp_nonneg m e l Hm) as H1.
  destruct (shr_fexp prec emax m e l) as [r1 e1]; simpl in H1.
  pose proof (round_nearest_even_ge (shr_m r1) (loc_of_shr_record r1)) as H2.
  pose proof (shr_fexp_nonneg (round_nearest_even (shr_m r1) (loc_of_shr_record r1))
                e1 loc_Exact ltac:(lia)) as H3.
  destruct (shr_fexp prec emax _ e1 loc_Exact) as [r2 e2]; simpl in H3.
  destruct (shr_m r2) as [|p|p]; try lia.
  - split; reflexivity.
  - destruct (e2 <=? emax - prec); split; reflexivity.
Qed.

Lemma binary_round_sign (s : bool) (m : positive) (e : Z) :
  has_sign s (binary_round prec emax s m e).
Proof.
  unfold binary_round.
  destruct (shl_align m e _) as [mz ez].
  apply binary_round_aux_sign; lia.
Qed.

(** The sign of a rounded integer [m * 2^e] is the sign of [m]. *)
Lemma binary_normalize_sign (m e : Z) :
  has_sign (m <? 0) (binary_normalize prec emax m e false).
Proof.
  destruct m as [|p|p]; simpl.
  - split; reflexivity.
  - apply binary_round_sign.
  - apply binary_round_sign.
Qed.

(** *** Mantissas of well-formed values *)

Lemma digits2_pos_bounds (m : positive) :
  2 ^ (Zpos (digits2_pos m) - 1) <= Zpos m < 2 ^ Zpos (digits2_pos m).
Proof.
  induction m as [m IH|m IH|]; simpl digits2_pos.
  - rewrite Pos2Z.inj_succ, Z.pow_succ_r by lia.
    replace (Z.succ (Zpos (digits2_pos m)) - 1) with (Z.succ (Zpos (digits2_pos m) - 1)) by lia.
    rewrite Z.pow_succ_r by lia. lia.
  - rewrite Pos2Z.inj_succ, Z.pow_succ_r by lia.
    replace (Z.succ (Zpos (digits2_pos m)) - 1) with (Z.succ (Zpos (digits2_pos m) - 1)) by lia.
    rewrite Z.pow_succ_r by lia. lia.
  - simpl. lia.
Qed.

(** A well-formed finite value has a mantissa below [2^53], an exponent of at
    least [emin = -1074], and a full 53-bit mantissa above that exponent. *)
Lemma valid_finite_bounds (s : bool) (m : positive) (e : Z) :
  valid (S754_finite s m e) = true ->
  Zpos m < 2 ^ 53 /\ -1074 <= e /\ (-1074 < e -> 2 ^ 52 <= Zpos m).
Proof.
  unfold valid, valid_binary, bounded, canonical_mantissa, fexp, SpecFloat.emin, prec, emax.
  intros H; apply andb_prop in H; destruct H as [H _]; apply Z.eqb_eq in H.
  pose proof (digits2_pos_bounds m) as [Hlo Hhi].
  set (d := Zpos (digits2_pos m)) in *.
  assert (Hd : d <= 53) by lia.
  split; [|split].
  - apply Z.lt_le_trans with (1 := Hhi). apply Z.pow_le_mono_r; lia.
  - lia.
  - intros He. assert (d = 53) as -> by lia. exact Hlo.
Qed.

Lemma iter_xO_value (m d : positive) : Zpos (Pos.iter xO m d) = Zpos m * 2 ^ Zpos d.
Proof.
  induction d as [|d IH] using Pos.peano_ind.
  - simpl. lia.
  - rewrite Pos.iter_succ, Pos2Z.inj_succ, Z.pow_succ_r by lia.
    rewrite Pos2Z.inj_xO, IH. lia.
Qed.

(** Aligning a mantissa to a smaller exponent multiplies it by a power of 2. *)
Lemma shl_align_value (m : positive) (e e' : Z) :
  e' <= e -> Zpos (fst (shl_align m e e')) = Zpos m * 2 ^ (e - e').
Proof.
  intros He; unfold shl_align.
  destruct (e' - e) as [|d|d] eqn:Hd; simpl; try lia.
  - replace (e - e') with 0 by lia. rewrite Z.pow_0_r. lia.
  - rewrite iter_xO_value. replace (e - e') with (Zpos d) by lia. reflexivity.
Qed.

(** For well-formed non-negative values, the order [SFcompare] reads off
    exponents and mantissas is the order of the aligned mantissas. *)
Lemma compare_aligned (ma mb : positive) (ea eb : Z) (c : comparison) :
  valid (S754_finite false ma ea) = true ->
  valid (S754_finite false mb eb) = true ->
  SFcompare (S754_finite false ma ea) (S754_finite false mb eb) = Some c ->
  c <> Lt ->
  Zpos (fst (shl_align mb eb (Z.min eb ea))) <= Zpos (fst (shl_align ma ea (Z.min eb ea))).
Proof.
  intros Va Vb; simpl; fold_pos_compare; intros [= Hc] Hlt.
  apply valid_finite_bounds in Va, Vb.
  destruct Va as (Ha1 & Ha2 & Ha3), Vb as (Hb1 & Hb2 & Hb3).
  rewrite !shl_align_value by lia.
  destruct (Z.compare_spec ea eb) as [He|He|He]; try congruence.
  - subst eb. rewrite Z.min_id, Z.sub_diag. simpl.
    destruct (Pos.compare_spec ma mb); try congruence; lia.
  - rewrite Z.min_l by lia. rewrite Z.sub_diag, Z.pow_0_r, Z.mul_1_r.
    assert (2 ^ 1 <= 2 ^ (ea - eb)) by (apply Z.pow_le_mono_r; lia).
    specialize (Ha3 ltac:(lia)). nia.
Qed.

(** *** The sign of a difference *)

Lemma nonpos_lt_pos (x ml : float) :
  (exists s, x = S754_zero s) \/ has_sign true x ->
  (zero <? ml)%pf = true -> (x <? ml)%pf = true.
Proof.
  unfold ltb, SFltb, has_sign.
  intros [[s ->]|[Hn Hs]]; destruct ml as [sm|sm| |sm mm em]; simpl; try discriminate;
    try (destruct sm; try discriminate; intros _);
    try reflexivity;
    destruct x as [sx|sx| |sx mx ex]; simpl in *; try discriminate; subst; reflexivity.
Qed.

(** When [a >= b], with [a] non-negative, the rounded difference [b - a] is
    below every positive bound: it is a zero or carries a minus sign. *)
Lemma sub_nonpos_lt (a b ml : float) (c : comparison) :
  valid a = true -> valid b = true ->
  signbit a = false -> b <> S754_infinity false ->
  SFcompare a b = Some c -> c <> Lt ->
  (zero <? ml)%pf = true ->
  (b - a <? ml)%pf = true.
Proof.
  intros Va Vb Sa Hb Hc Hlt Hml.
  apply nonpos_lt_pos; trivial.
  destruct a as [sa|sa| |sa ma ea]; simpl in Sa, Hc; try discriminate; subst sa;
    destruct b as [sb|sb| |sb mb eb]; simpl in Hc; try discriminate;
    try (destruct sb; try congruence; simpl;
         (left; eexists; reflexivity) || (right; split; reflexivity)).
  destruct sb.
  - right. unfold sub, SFsub.
    match goal with |- has_sign _ (binary_normalize _ _ ?D _ _) =>
      replace true with (D <? 0); [apply binary_normalize_sign|] end.
    apply Z.ltb_lt. simpl. lia.
  - pose proof (compare_aligned _ _ _ _ _ Va Vb Hc Hlt) as Hle.
    unfold sub, SFsub. simpl cond_Zopp.
    set (Mb := Zpos (fst (shl_align mb eb (Z.min eb ea)))) in *.
    set (Ma := Zpos (fst (shl_align ma ea (Z.min eb ea)))) in *.
    destruct (Z.eq_dec (Mb - Ma) 0) as [E|E].
    + left. rewrite E. simpl. eexists; reflexivity.
    + right. replace true with (Mb - Ma <? 0) by (apply Z.ltb_lt; lia).
      apply binary_normalize_sign.
Qed.

(** *** The sign of a quotient and of a difference of finite values *)

Lemma sub_not_nan (a b : float) :
  is_nan a = false -> is_nan b = false -> is_finite a = true ->
  is_nan (b - a)%pf = false.
Proof.
  destruct a as [sa|sa| |sa ma ea], b as [sb|sb| |sb mb eb]; simpl; try discriminate;
    intros _ _ _; try reflexivity.
  - destruct sb, sa; reflexivity.
  - apply binary_normalize_sign.
Qed.

Lemma div_eucl_nonneg (a b : Z) : 0 <= a -> 0 < b -> 0 <= fst (Z.div_eucl a b).
Proof.
  intros Ha Hb. pose proof (Z_div_mod a b ltac:(lia)) as H.
  destruct (Z.div_eucl a b) as [q r]; simpl. nia.
Qed.

Lemma div_sign (sx sy : bool) (mx my : positive) (ex ey : Z) :
  has_sign (xorb sx sy) (S754_finite sx mx ex / S754_finite sy my ey)%pf.
Proof.
  unfold div, SFdiv, SFdiv_core_binary.
  set (s := ex - ey - _).
  set (m' := match s with Z0 => Zpos mx | Zpos _ => Z.shiftl (Zpos mx) s | Zneg _ => 0 end).
  assert (Hm : 0 <= m').
  { subst m'; destruct s; try lia. apply Z.shiftl_nonneg; lia. }
  pose proof (div_eucl_nonneg m' (Zpos my) Hm ltac:(lia)) as Hq.
  destruct (Z.div_eucl m' (Zpos my)) as [q r]; simpl in Hq.
  apply binary_round_aux_sign; exact Hq.
Qed.

Lemma has_sign_false_ge_zero (x : float) : has_sign false x -> (zero <=? x)%pf = true.
Proof.
  intros [Hn Hs]; destruct x as [s|s| |s m e]; simpl in *; try discriminate; subst; reflexivity.
Qed.

Lemma lt_has_sign_false (a b : float) :
  has_sign false a -> SFcompare a b = Some Lt -> has_sign false b.
Proof.
  intros [Hn Hs]; destruct a as [sa|sa| |sa ma ea]; simpl in *; try discriminate; subst;
    destruct b as [sb|sb| |sb mb eb]; simpl; try discriminate;
    destruct sb; try discriminate; intros _; split; reflexivity.
Qed.

(** Two finite values that compare equal are the same value. *)
Lemma compare_eq_finite (m : positive) (e : Z) (y : float) :
  SFcompare (S754_finite false m e) y = Some Eq -> y = S754_finite false m e.
Proof.
  destruct y as [s|s| |s m' e']; simpl; try discriminate;
    destruct s; try discriminate.
  fold_pos_compare. intros [= H].
  destruct (Z.compare_spec e e'); try discriminate.
  destruct (Pos.compare_spec m m'); try discriminate.
  subst; reflexivity.
Qed.

(** *** Shifting right and rounding an integer mantissa *)

Lemma shr_1_half (r : shr_record) : 0 <= shr_m r -> shr_m (shr_1 r) = shr_m r / 2.
Proof.
  destruct r as [m r s]; cbn [shr_m]; intros Hm.
  destruct m as [|[p|p|]|p]; cbn [shr_1 shr_m]; try lia; try reflexivity.
  - apply Z.div_unique with 1; lia.
  - apply Z.div_unique with 0; lia.
Qed.

Lemma iter_shr_1_nonneg (n : positive) (r : shr_record) :
  0 <= shr_m r -> 0 <= shr_m (iter_pos shr_1 n r).
Proof. apply (iter_pos_invariant (fun r => 0 <= shr_m r)); auto using shr_1_nonneg. Qed.

Lemma iter_shr_1_div (n : positive) (r : shr_record) :
  0 <= shr_m r -> shr_m (iter_pos shr_1 n r) = shr_m r / 2 ^ Zpos n.
Proof.
  revert r; induction n as [n IH|n IH|]; intros r Hr; simpl iter_pos.
  - rewrite IH, IH, shr_1_half by auto using iter_shr_1_nonneg, shr_1_nonneg.
    rewrite !Z.div_div by lia. f_equal.
    replace (Zpos n~1) with (1 + Zpos n + Zpos n) by lia.
    rewrite !Z.pow_add_r, Z.pow_1_r by lia. ring.
  - rewrite IH, IH by auto using iter_shr_1_nonneg.
    rewrite !Z.div_div by lia. f_equal.
    replace (Zpos n~0) with (Zpos n + Zpos n) by lia.
    rewrite Z.pow_add_r by lia. reflexivity.
  - rewrite shr_1_half by trivial. reflexivity.
Qed.

(** Shifting right by [n >= 0] divides the mantissa by [2^n] and adds [n] to the exponent. *)
Lemma shr_div (r : shr_record) (e n : Z) :
  0 <= shr_m r -> 0 <= n ->
  shr_m (fst (shr r e n)) = shr_m r / 2 ^ n /\ snd (shr r e n) = e + n.
Proof.
  intros Hr Hn; destruct n as [|p|p]; simpl; try lia.
  - rewrite Z.div_1_r. lia.
  - split; [apply iter_shr_1_div; trivial|reflexivity].
Qed.

Lemma shr_noop (r : shr_record) (e n : Z) : n <= 0 -> shr r e n = (r, e).
Proof. destruct n; simpl; trivial; lia. Qed.

Lemma digits2_pos_ge (m : positive) (k : Z) : 2 ^ (k - 1) <= Zpos m -> k <= Zpos (digits2_pos m).
Proof.
  intros H. pose proof (digits2_pos_bounds m) as [_ Hhi].
  destruct (Z_le_gt_dec k (Zpos (digits2_pos m))) as [|Hgt]; trivial.
  assert (2 ^ Zpos (digits2_pos m) <= 2 ^ (k - 1)) by (apply Z.pow_le_mono_r; lia).
  lia.
Qed.

Lemma shl_align_noop (m : positive) (e e' : Z) : e <= e' -> shl_align m e e' = (m, e).
Proof. intros H; unfold shl_align; destruct (e' - e) eqn:E; trivial; lia. Qed.

(** Canonical exponent of a well-formed finite value. *)
Lemma valid_finite_fexp (s : bool) (m : positive) (e : Z) :
  valid (S754_finite s m e) = true ->
  Z.max (Zpos (digits2_pos m) + e - 53) (-1074) = e.
Proof.
  unfold valid, valid_binary, bounded, canonical_mantissa, fexp, SpecFloat.emin, prec, emax.
  intros H; apply andb_prop in H; destruct H as [H _]; apply Z.eqb_eq in H. exact H.
Qed.

Lemma fexp_unfold (x : Z) : fexp prec emax x = Z.max (x - 53) (-1074).
Proof. reflexivity. Qed.

(** Rounding a positive integer mantissa [D * 2^ez] that is at least a
    well-formed [md * 2^ed] yields a value that [SFcompare] places at or
    above it. *)
Lemma binary_round_ge (md D : positive) (ed ez : Z) :
  valid (S754_finite false md ed) = true ->
  ez <= ed -> Zpos md * 2 ^ (ed - ez) <= Zpos D ->
  exists c, SFcompare (S754_finite false md ed) (binary_round prec emax false D ez) = Some c
            /\ c <> Gt.
Proof.
  intros V Hez HD.
  pose proof (valid_finite_fexp _ _ _ V) as Hcan.
  pose proof (valid_finite_bounds _ _ _ V) as (_ & Hemin & _).
  pose proof (digits2_pos_bounds md) as [Hmd _].
  pose proof (digits2_pos_bounds D) as [HDlo _].
  assert (Hpow : 0 < 2 ^ (ed - ez)) by (apply Z.pow_pos_nonneg; lia).
  assert (Hdig : Zpos (digits2_pos md) + (ed - ez) <= Zpos (digits2_pos D)).
  { apply digits2_pos_ge.
    replace (Zpos (digits2_pos md) + (ed - ez) - 1)
      with ((Zpos (digits2_pos md) - 1) + (ed - ez)) by lia.
    rewrite Z.pow_add_r by lia. nia. }
  set (f := fexp prec emax (Zpos (digits2_pos D) + ez)).
  assert (Hf : f = Z.max (Zpos (digits2_pos D) + ez - 53) (-1074)) by reflexivity.
  assert (Hfed : ed <= f) by lia.
  assert (Hfpow : 0 < 2 ^ (f - ez)) by (apply Z.pow_pos_nonneg; lia).
  assert (HDf : 2 ^ (f - ez) <= Zpos D).
  { destruct (Z.max_spec (Zpos (digits2_pos D) + ez - 53) (-1074)) as [[_ E]|[_ E]];
      rewrite <- Hf in E.
    - assert (f = ed) as -> by lia. nia.
    - apply Z.le_trans with (2 := HDlo). apply Z.pow_le_mono_r; lia. }
  unfold binary_round. fold f. rewrite shl_align_noop by lia.
  unfold binary_round_aux, shr_fexp. cbn [Zdigits2]. fold f.
  destruct (shr_div (shr_record_of_loc (Zpos D) loc_Exact) ez (f - ez)) as [Hm1 He1];
    [simpl; lia | lia |].
  destruct (shr (shr_record_of_loc (Zpos D) loc_Exact) ez (f - ez)) as [r1 e1].
  cbn [fst snd] in Hm1, He1. cbn [shr_record_of_loc shr_m] in Hm1.
  assert (e1 = f) as -> by lia. clear He1.
  assert (H1 : 1 <= shr_m r1).
  { rewrite Hm1. apply Z.div_le_lower_bound; lia. }
  assert (H1d : f = ed -> Zpos md <= shr_m r1).
  { intros ->. rewrite Hm1. apply Z.div_le_lower_bound; lia. }
  pose proof (round_nearest_even_ge (shr_m r1) (loc_of_shr_record r1)) as H2.
  set (m2 := round_nearest_even (shr_m r1) (loc_of_shr_record r1)) in *.
  destruct m2 as [|p2|p2] eqn:Em2; try lia.
  cbn [Zdigits2]. rewrite fexp_unfold.
  set (n2 := Z.max (Zpos (digits2_pos p2) + f - 53) (-1074) - f).
  destruct (Z_le_gt_dec n2 0) as [Hn2|Hn2].
  - rewrite shr_noop by trivial. cbn [shr_record_of_loc shr_m].
    destruct (f <=? emax - prec).
    + simpl. fold_pos_compare.
      destruct (Z.compare_spec ed f) as [E|E|E]; try lia.
      * destruct (Pos.compare_spec md p2) as [E'|E'|E'].
        -- exists Eq; split; [reflexivity|discriminate].
        -- exists Lt; split; [reflexivity|discriminate].
        -- specialize (H1d (eq_sym E)). lia.
      * exists Lt; split; [reflexivity|discriminate].
    + exists Lt; split; [reflexivity|discriminate].
  - destruct (shr_div (shr_record_of_loc (Zpos p2) loc_Exact) f n2) as [Hm3 He3];
      [simpl; lia | lia |].
    destruct (shr (shr_record_of_loc (Zpos p2) loc_Exact) f n2) as [r3 e3].
    cbn [fst snd] in Hm3, He3. cbn [shr_record_of_loc shr_m] in Hm3.
    pose proof (digits2_pos_bounds p2) as [Hp2 _].
    assert (Hn2' : n2 = Zpos (digits2_pos p2) - 53) by lia.
    assert (H3 : 1 <= shr_m r3).
    { rewrite Hm3. apply Z.div_le_lower_bound; [apply Z.pow_pos_nonneg; lia|].
      rewrite Z.mul_1_r. apply Z.le_trans with (2 := Hp2).
      apply Z.pow_le_mono_r; lia. }
    destruct (shr_m r3) as [|p3|p3]; try lia.
    destruct (e3 <=? emax - prec).
    + simpl. destruct (Z.compare_spec ed e3) as [E|E|E]; try lia.
      exists Lt; split; [reflexivity|discriminate].
    + exists Lt; split; [reflexivity|discriminate].
Qed.

(** Adding a non-negative value never decreases a well-formed one. *)
Lemma add_nonneg_ge (md mk : positive) (ed ek : Z) :
  valid (S754_finite false md ed) = true ->
  exists c, SFcompare (S754_finite false md ed)
              (S754_finite false md ed + S754_finite false mk ek)%pf = Some c
            /\ c <> Gt.
Proof.
  intros V. unfold add, SFadd. cbn [cond_Zopp].
  set (ez := Z.min ed ek).
  pose proof (shl_align_value md ed ez ltac:(lia)) as Hd.
  rewrite <- Pos2Z.inj_add. cbn [binary_normalize].
  apply binary_round_ge; trivial; lia.
Qed.

End FloatFacts.
(** ** The timecode validator *)

Section Validator.
Import PyFloat FloatFacts.

Lemma gt_zero_not_le (d : float) : (d >? zero)%pf = true -> (d <=? zero)%pf = false.
Proof.
  unfold gtb, leb, SFltb, SFleb.
  destruct (SFcompare zero d) as [[ | | ]|] eqn:E; try discriminate; intros _.
  apply compare_swap in E. rewrite E. reflexivity.
Qed.

(** The clamped start is [0.0] or the requested start, and then the request
    is above zero. *)
Lemma max_zero_cases (start : float) :
  Py.max zero start = zero \/
  (Py.max zero start = start /\ SFcompare zero start = Some Lt).
Proof.
  unfold Py.max, gtb, SFltb.
  destruct (SFcompare zero start) as [[ | | ]|]; auto.
Qed.

Lemma max_zero_sign (start : float) : has_sign false (Py.max zero start).
Proof.
  destruct (max_zero_cases start) as [->|[-> H]]; [split; reflexivity|].
  destruct start as [s|s| |s m e]; simpl in H; try discriminate;
    destruct s; try discriminate; split; reflexivity.
Qed.

Lemma max_zero_valid (start : float) :
  valid start = true -> valid (Py.max zero start) = true.
Proof. destruct (max_zero_cases start) as [->|[-> _]]; auto. Qed.

Lemma max_zero_ge (start : float) : (zero <=? Py.max zero start)%pf = true.
Proof.
  unfold leb, SFleb.
  destruct (max_zero_cases start) as [->|[-> ->]]; reflexivity.
Qed.

(** The clamped end is the duration or the requested end. *)
Lemma min_cases (end_ duration : float) :
  (Py.min end_ duration = duration /\ SFcompare duration end_ = Some Lt) \/
  (Py.min end_ duration = end_ /\ SFcompare duration end_ <> Some Lt).
Proof.
  unfold Py.min, ltb, SFltb.
  destruct (SFcompare duration end_) as [[ | | ]|]; auto; right; split; congruence.
Qed.

Lemma min_le (end_ duration : float) :
  is_nan end_ = false -> is_nan duration = false ->
  exists c, SFcompare (Py.min end_ duration) duration = Some c /\ c <> Gt.
Proof.
  intros He Hd.
  destruct (min_cases end_ duration) as [[-> _]|[-> H]].
  - exists Eq. split; [apply compare_refl; trivial|discriminate].
  - destruct (compare_total duration end_ Hd He) as [c Hc].
    exists (CompOpp c). split; [apply compare_swap; trivial|].
    destruct c; simpl; congruence.
Qed.

Lemma min_not_pinf (end_ duration : float) :
  is_nan end_ = false -> is_finite duration = true ->
  Py.min end_ duration <> S754_infinity false.
Proof.
  intros He Hd Hinf.
  assert (Hn : is_nan duration = false) by (destruct duration; simpl in *; congruence).
  destruct (min_le end_ duration He Hn) as (c & Hc & Hgt).
  rewrite Hinf in Hc. destruct duration; simpl in *; try discriminate; congruence.
Qed.

Lemma min_valid (end_ duration : float) :
  valid end_ = true -> valid duration = true -> valid (Py.min end_ duration) = true.
Proof. intros; destruct (min_cases end_ duration) as [[-> _]|[-> _]]; trivial. Qed.

Lemma min_not_nan (end_ duration : float) :
  is_nan end_ = false -> is_nan duration = false ->
  is_nan (Py.min end_ duration) = false.
Proof. intros; destruct (min_cases end_ duration) as [[-> _]|[-> _]]; trivial. Qed.

Lemma round_ndigits_sign (x : float) (n : Z) :
  is_nan x = false -> has_sign (signbit x) (Py.round_ndigits x n).
Proof.
  destruct x as [s|s| |s m e]; simpl; try discriminate; intros _;
    try (split; reflexivity).
  destruct (Py.nearest_even _ e); try (split; reflexivity).
  replace s with (xorb s false) at 1 by (destruct s; reflexivity).
  apply div_sign.
Qed.

(** A window that passes the length check against a positive bound is
    ordered: the clamped start is below the clamped end and the duration. *)
Lemma clamped_window_ordered (start end_ duration min_length : float) :
  valid start = true -> valid end_ = true -> valid duration = true ->
  is_nan end_ = false -> is_finite duration = true ->
  (zero <? min_length)%pf = true ->
  (Py.min end_ duration - Py.max zero start <? min_length)%pf = false ->
  SFcompare (Py.max zero start) (Py.min end_ duration) = Some Lt /\
  SFcompare (Py.max zero start) duration = Some Lt.
Proof.
  intros Vs Ve Vd Ne Fd Hml Hpass.
  assert (Nd : is_nan duration = false) by (destruct duration; simpl in *; congruence).
  destruct (max_zero_sign start) as [Ns Ss].
  pose proof (min_not_nan _ _ Ne Nd) as Nm.
  destruct (compare_total _ _ Ns Nm) as [c Hc].
  assert (c = Lt) as ->.
  { destruct c; trivial;
      rewrite (sub_nonpos_lt _ _ min_length _ (max_zero_valid _ Vs)
                 (min_valid _ _ Ve Vd) Ss (min_not_pinf _ _ Ne Fd) Hc) in Hpass;
      trivial; discriminate. }
  split; trivial.
  destruct (min_le _ _ Ne Nd) as (c & Hc' & Hgt).
  exact (compare_lt_le_trans _ _ _ _ Hc Hc' Hgt).
Qed.

(** The signs of a returned window: the start is never negative, and the end
    is NaN (when the requested end or the duration is) or not negative. *)
Lemma sanitize_ok_signs (start end_ duration min_length start' end' : float) :
  sanitize_timecodes start end_ duration min_length = Ok (start', end') ->
  has_sign false start' /\ (is_nan end' = true \/ has_sign false end').
Proof.
  unfold sanitize_timecodes.
  destruct (duration <=? zero)%pf; [discriminate|].
  set (s := Py.max zero start). set (e := Py.min end_ duration).
  destruct (e - s <? min_length)%pf; [discriminate|].
  destruct (s >=? duration)%pf; [discriminate|].
  destruct (e <=? s)%pf eqn:Hes; [discriminate|].
  intros [= <- <-].
  pose proof (max_zero_sign start) as Hs; fold s in Hs.
  split.
  - rewrite <- (proj2 Hs) at 1. apply round_ndigits_sign, Hs.
  - destruct (is_nan e) eqn:Hne.
    + left. destruct e; try discriminate. reflexivity.
    + right. destruct (compare_total e s Hne (proj1 Hs)) as [c Hc].
      unfold leb, SFleb in Hes. rewrite Hc in Hes.
      apply compare_swap in Hc. destruct c; try discriminate.
      pose proof (lt_has_sign_false _ _ Hs Hc) as He.
      rewrite <- (proj2 He) at 1. apply round_ndigits_sign, He.
Qed.

(** C5: for every input with duration > 0, if the clamped window
    min(end, duration) - max(0, start) is shorter than min_length, the call
    fails with SelectionTooShort: the length is checked after clamping. *)
Theorem sanitize_too_short_after_clamping (start end_ duration min_length : float) :
  (duration >? zero)%pf = true ->
  (Py.min end_ duration - Py.max zero start <? min_length)%pf = true ->
  sanitize_timecodes start end_ duration min_length = Err SelectionTooShort.
Proof.
  intros Hd Hshort. unfold sanitize_timecodes.
  rewrite (gt_zero_not_le _ Hd), Hshort. reflexivity.
Qed.

(** C5, at the input of the test suite: sanitize_timecodes(10.0, 10.1,
    duration=10.0) clamps to an empty window and fails with
    SelectionTooShort. *)
Lemma sanitize_too_short_after_clamping_witness :
  (Demo.f10 >? zero)%pf = true /\
  (Py.min Demo.f10_1 Demo.f10 - Py.max zero Demo.f10 <? default_min_length)%pf = true /\
  sanitize_timecodes Demo.f10 Demo.f10_1 Demo.f10 default_min_length
  = Err SelectionTooShort.
Proof.
  split; [reflexivity|]. split; [reflexivity|].
  apply (sanitize_too_short_after_clamping Demo.f10 Demo.f10_1 Demo.f10 default_min_length);
    reflexivity.
Defined.

(** C10, as stated, fails: with end = NaN the length check passes vacuously
    and sanitize_timecodes(20.0, nan, 10.0) raises StartOutOfBounds; so does
    sanitize_timecodes(inf, inf, inf), where end - start is NaN. *)
Lemma sanitize_nan_end_reaches_start_guard :
  (zero <? default_min_length)%pf = true /\
  (Demo.f10 >? zero)%pf = true /\
  sanitize_timecodes Demo.f20 S754_nan Demo.f10 default_min_length = Err StartOutOfBounds /\
  (S754_infinity false >? zero)%pf = true /\
  sanitize_timecodes (S754_infinity false) (S754_infinity false) (S754_infinity false)
    default_min_length = Err StartOutOfBounds /\
  StartOutOfBounds <> InvalidDuration /\ StartOutOfBounds <> SelectionTooShort.
Proof. repeat split; try reflexivity; discriminate. Qed.

(** C10, amended: for well-formed doubles with min_length > 0, a finite
    duration and an end that is not NaN, a clamped window that passes the
    length check already has its start below the duration and below its end,
    so every failure is InvalidDuration or SelectionTooShort. *)
Theorem sanitize_guards_unreachable (start end_ duration min_length : float) :
  valid start = true -> valid end_ = true -> valid duration = true ->
  is_nan end_ = false -> is_finite duration = true ->
  (zero <? min_length)%pf = true ->
  ((Py.min end_ duration - Py.max zero start <? min_length)%pf = false ->
   (Py.max zero start <? duration)%pf = true /\
   (Py.max zero start <? Py.min end_ duration)%pf = true) /\
  only_duration_or_length_failures start end_ duration min_length.
Proof.
  intros Vs Ve Vd Ne Fd Hml.
  pose proof (clamped_window_ordered _ _ _ _ Vs Ve Vd Ne Fd Hml) as H.
  split.
  - intros Hpass. destruct (H Hpass) as [H1 H2].
    unfold ltb, SFltb. rewrite H1, H2. split; reflexivity.
  - intros e. unfold sanitize_timecodes.
    destruct (duration <=? zero)%pf; [intros [= He]; left; symmetry; exact He|].
    destruct (Py.min end_ duration - Py.max zero start <? min_length)%pf eqn:Hpass;
      [intros [= He]; right; symmetry; exact He|].
    destruct (H eq_refl) as [H1 H2].
    unfold geb, leb, SFleb.
    rewrite (compare_swap _ _ _ H2), (compare_swap _ _ _ H1). simpl. discriminate.
Qed.

(** C10, amended, at sanitize_timecodes(-5.0, 120.0, duration=100.0). *)
Lemma sanitize_guards_unreachable_witness :
  valid Demo.minus5 = true /\ valid Demo.f120 = true /\ valid Demo.f100 = true /\
  is_nan Demo.f120 = false /\ is_finite Demo.f100 = true /\
  (zero <? default_min_length)%pf = true /\
  ((Py.min Demo.f120 Demo.f100 - Py.max zero Demo.minus5 <? default_min_length)%pf = false ->
   (Py.max zero Demo.minus5 <? Demo.f100)%pf = true /\
   (Py.max zero Demo.minus5 <? Py.min Demo.f120 Demo.f100)%pf = true) /\
  only_duration_or_length_failures Demo.minus5 Demo.f120 Demo.f100 default_min_length.
Proof.
  repeat (split; [reflexivity|]).
  apply (sanitize_guards_unreachable Demo.minus5 Demo.f120 Demo.f100 default_min_length);
    reflexivity.
Defined.

(** C2, as stated, fails: the bounds are rounded to milliseconds after the
    checks, so sanitize_timecodes(0.0, 20.0, 10.0006) returns (0.0, 10.001)
    with an end beyond the duration; and sanitize_timecodes(0.0, nan, 10.0)
    returns (0.0, nan). *)
Lemma sanitize_rounding_exceeds_duration :
  sanitize_timecodes zero Demo.f20 Demo.f10_0006 default_min_length
  = Ok (zero, Demo.f10_001) /\
  time_window_inv zero Demo.f10_001 Demo.f10_0006 default_min_length = false /\
  sanitize_timecodes zero S754_nan Demo.f10 default_min_length = Ok (zero, S754_nan) /\
  time_window_inv zero S754_nan Demo.f10 default_min_length = false.
Proof. repeat split; reflexivity. Qed.

(** C2, amended: when end, duration and min_length are not NaN and the call
    returns (start', end'), the clamped window (max(0, start),
    min(end, duration)) satisfies the TimeWindow invariant, the returned
    bounds are its roundings to three decimals, and neither is negative. *)
Theorem sanitize_window_before_rounding
    (start end_ duration min_length start' end' : float) :
  is_nan end_ = false -> is_nan duration = false -> is_nan min_length = false ->
  sanitize_timecodes start end_ duration min_length = Ok (start', end') ->
  time_window_inv (Py.max zero start) (Py.min end_ duration) duration min_length = true /\
  start' = Py.round_ndigits (Py.max zero start) 3 /\
  end' = Py.round_ndigits (Py.min end_ duration) 3 /\
  (zero <=? start')%pf = true /\ (zero <=? end')%pf = true.
Proof.
  intros Ne Nd Nm Hok.
  pose proof (sanitize_ok_signs _ _ _ _ _ _ Hok) as [Hs' He'].
  revert Hok. unfold sanitize_timecodes.
  destruct (duration <=? zero)%pf; [discriminate|].
  set (s := Py.max zero start) in *. set (e := Py.min end_ duration) in *.
  destruct (e - s <? min_length)%pf eqn:Hlen; [discriminate|].
  destruct (s >=? duration)%pf eqn:Hsd; [discriminate|].
  destruct (e <=? s)%pf eqn:Hes; [discriminate|].
  intros [= <- <-].
  pose proof (max_zero_sign start) as Hs; fold s in Hs.
  pose proof (min_not_nan _ _ Ne Nd) as Hne; fold e in Hne.
  assert (Hse : SFcompare s e = Some Lt).
  { destruct (compare_total e s Hne (proj1 Hs)) as [c Hc].
    unfold leb, SFleb in Hes. rewrite Hc in Hes.
    apply compare_swap in Hc. destruct c; try discriminate; exact Hc. }
  assert (Fs : is_finite s = true).
  { destruct Hs as [_ Hs]. destruct s as [ss|ss| |ss ms es]; simpl in *; try reflexivity;
      try discriminate. subst ss. destruct e; simpl in Hse; try discriminate;
      destruct s; discriminate. }
  repeat split.
  - unfold time_window_inv.
    pose proof (max_zero_ge start) as Hz; fold s in Hz. rewrite Hz.
    unfold ltb, SFltb at 1. rewrite Hse.
    destruct (min_le _ _ Ne Nd) as (c & Hc & Hgt). fold e in Hc.
    unfold leb at 1, SFleb. rewrite Hc.
    pose proof (sub_not_nan s e (proj1 Hs) Hne Fs) as Hsub.
    destruct (compare_total _ _ Hsub Nm) as [c' Hc'].
    unfold ltb, SFltb in Hlen. rewrite Hc' in Hlen.
    unfold leb, SFleb. rewrite (compare_swap _ _ _ Hc').
    destruct c, c'; simpl; congruence.
  - apply has_sign_false_ge_zero, Hs'.
  - destruct He' as [He'|He']; [|apply has_sign_false_ge_zero, He'].
    pose proof (round_ndigits_sign e 3 Hne) as [Hn _]. congruence.
Qed.

(** C2, amended, at sanitize_timecodes(0.0, 20.0, duration=10.0006): the
    clamped window (0.0, 10.0006) satisfies the invariant and is returned as
    (0.0, 10.001). *)
Lemma sanitize_window_before_rounding_witness :
  is_nan Demo.f20 = false /\ is_nan Demo.f10_0006 = false /\
  is_nan default_min_length = false /\
  sanitize_timecodes zero Demo.f20 Demo.f10_0006 default_min_length
  = Ok (zero, Demo.f10_001) /\
  time_window_inv (Py.max zero zero) (Py.min Demo.f20 Demo.f10_0006) Demo.f10_0006
    default_min_length = true /\
  zero = Py.round_ndigits (Py.max zero zero) 3 /\
  Demo.f10_001 = Py.round_ndigits (Py.min Demo.f20 Demo.f10_0006) 3 /\
  (zero <=? zero)%pf = true /\ (zero <=? Demo.f10_001)%pf = true.
Proof.
  repeat (split; [reflexivity|]).
  apply (sanitize_window_before_rounding zero Demo.f20 Demo.f10_0006 default_min_length
           zero Demo.f10_001); reflexivity.
Defined.

End Validator.

Section ValidatorClamp.
Import PyFloat FloatFacts.

(** C3, as stated, fails: a duration below min_length is rejected, and a
    duration with more than three decimals comes back rounded:
    sanitize_timecodes(-5, 0.25 + 1000, 0.25) raises SelectionTooShort and
    sanitize_timecodes(-5, 10.0006 + 1000, 10.0006) returns (0.0, 10.001). *)
Lemma sanitize_short_or_unrounded_duration :
  (Demo.f0_25 >? zero)%pf = true /\
  sanitize_timecodes (of_Z (-5)) (Demo.f0_25 + of_Z 1000)%pf Demo.f0_25 default_min_length
  = Err SelectionTooShort /\
  (Demo.f10_0006 >? zero)%pf = true /\
  sanitize_timecodes (of_Z (-5)) (Demo.f10_0006 + of_Z 1000)%pf Demo.f10_0006
    default_min_length
  = Ok (zero, Demo.f10_001) /\
  Demo.f10_001 <> Demo.f10_0006.
Proof. repeat split; try reflexivity; discriminate. Qed.

(** C3, amended: for every well-formed finite duration of at least
    min_length = 0.5, sanitize_timecodes(-5, duration + 1000, duration)
    succeeds and returns (0.0, round(duration, 3)), which is (0.0, duration)
    when the duration is its own rounding to three decimals. *)
Theorem sanitize_clamps_to_duration (duration : float) :
  valid duration = true -> is_finite duration = true ->
  (default_min_length <=? duration)%pf = true ->
  sanitize_timecodes (of_Z (-5)) (duration + of_Z 1000)%pf duration default_min_length
  = Ok (zero, Py.round_ndigits duration 3) /\
  (Py.round_ndigits duration 3 = duration ->
   sanitize_timecodes (of_Z (-5)) (duration + of_Z 1000)%pf duration default_min_length
   = Ok (zero, duration)).
Proof.
  intros V F Hmin.
  assert (H : sanitize_timecodes (of_Z (-5)) (duration + of_Z 1000)%pf duration
                default_min_length = Ok (zero, Py.round_ndigits duration 3)).
  { destruct duration as [s|s| |s m e]; try discriminate.
    destruct s; [discriminate|].
    assert (Hmin_end : Py.min (S754_finite false m e + of_Z 1000)%pf (S754_finite false m e)
                       = S754_finite false m e).
    { change (of_Z 1000) with (S754_finite false 8796093022208000 (-43)).
      destruct (add_nonneg_ge m 8796093022208000 e (-43) V) as (c & Hc & Hgt).
      unfold Py.min, ltb, SFltb. rewrite Hc.
      destruct c; try congruence.
      apply compare_eq_finite in Hc. exact Hc. }
    unfold sanitize_timecodes. rewrite Hmin_end.
    change (Py.max zero (of_Z (-5))) with zero.
    change (S754_finite false m e <=? zero)%pf with false.
    change (zero >=? S754_finite false m e)%pf with false.
    change (S754_finite false m e - zero)%pf with (S754_finite false m e).
    cbv iota.
    unfold leb, SFleb in Hmin. unfold ltb, SFltb.
    destruct (SFcompare default_min_length (S754_finite false m e)) as [c|] eqn:Hc;
      [|discriminate].
    rewrite (compare_swap _ _ _ Hc).
    destruct c; try discriminate; reflexivity. }
  split; [exact H|]. intros Hr. rewrite Hr in H. exact H.
Qed.

(** C3, amended, at duration 100.0, which is its own rounding: the call
    returns (0.0, 100.0). *)
Lemma sanitize_clamps_to_duration_witness :
  valid Demo.f100 = true /\ is_finite Demo.f100 = true /\
  (default_min_length <=? Demo.f100)%pf = true /\
  sanitize_timecodes (of_Z (-5)) (Demo.f100 + of_Z 1000)%pf Demo.f100 default_min_length
  = Ok (zero, Demo.f100).
Proof.
  split; [reflexivity|]. split; [reflexivity|]. split; [reflexivity|].
  apply (sanitize_clamps_to_duration Demo.f100); reflexivity.
Defined.

End ValidatorClamp.

(** ** The crop geometry *)

Section CropGeometry.
Import PyFloat.

(** C6: compute_crop_box(1920, 1080, 1080, 1920) is the centered horizontal
    crop with x1 = 656, y1 = 0, width 608 and height 1080. *)
Theorem crop_landscape_to_vertical :
  exists b, compute_crop_box 1920 1080 1080 1920 = Ok b /\
            x1 b = 656 /\ y1 b = 0 /\ box_width b = 608 /\ box_height b = 1080.
Proof.
  exists (mkCropBox 656 0 1264 1080).
  split; [vm_compute; reflexivity|]. repeat split.
Qed.

(** C7: for positive dimensions whose ratios width/height and
    target_width/target_height are close within relative tolerance 1e-3,
    compute_crop_box returns the full source frame (0, 0, width, height). *)
Theorem crop_full_frame_when_ratios_close
    (width height target_width target_height : Z) (src_ratio dest_ratio : float) :
  0 < width -> 0 < height -> 0 < target_width -> 0 < target_height ->
  Py.int_truediv width height = Ok src_ratio ->
  Py.int_truediv target_width target_height = Ok dest_ratio ->
  Py.isclose src_ratio dest_ratio rel_tol_1e_3 = true ->
  compute_crop_box width height target_width target_height
  = Ok (mkCropBox 0 0 width height).
Proof.
  intros Hw Hh Htw Hth Hs Hd Hclose. unfold compute_crop_box.
  replace (width <=? 0) with false by (symmetry; apply Z.leb_gt; lia).
  replace (height <=? 0) with false by (symmetry; apply Z.leb_gt; lia).
  replace (target_width <=? 0) with false by (symmetry; apply Z.leb_gt; lia).
  replace (target_height <=? 0) with false by (symmetry; apply Z.leb_gt; lia).
  cbn [orb]. rewrite Hs, Hd. cbn [bind]. rewrite Hclose. reflexivity.
Qed.

(** C7 at the input of the test suite: compute_crop_box(1080, 1920, 1080,
    1920) returns x1 = 0, y1 = 0, x2 = 1080, y2 = 1920. *)
Lemma crop_full_frame_when_ratios_close_witness :
  Py.int_truediv 1080 1920 = Ok (of_ratio 9 16) /\
  Py.isclose (of_ratio 9 16) (of_ratio 9 16) rel_tol_1e_3 = true /\
  compute_crop_box 1080 1920 1080 1920 = Ok (mkCropBox 0 0 1080 1920).
Proof.
  split; [reflexivity|]. split; [reflexivity|].
  apply (crop_full_frame_when_ratios_close 1080 1920 1080 1920 (of_ratio 9 16) (of_ratio 9 16));
    try lia; reflexivity.
Defined.

(** C1 fails on the code: for a 1920x1080 source and a 1x4000 target the new
    width round(1080 * 0.00025) is 0, and the returned box (960, 0, 960,
    1080) has x1 = x2. *)
Theorem crop_box_empty_at_extreme_ratio :
  compute_crop_box 1920 1080 1 4000 = Ok (mkCropBox 960 0 960 1080) /\
  ~ crop_box_inv (mkCropBox 960 0 960 1080) 1920 1080.
Proof.
  split; [vm_compute; reflexivity|].
  unfold crop_box_inv; simpl. lia.
Qed.

End CropGeometry.

(** ** The export *)

Section ExportFacts.
Import PyFloat FloatFacts.
Context {E Clip : Type} (env : Env E Clip).

(** For a value that is not negative, [int] truncates to the floor. *)
Lemma int_floor_nonneg (x : float) : signbit x = false -> Py.int x = Py.floor x.
Proof. destruct x as [s|s| |s m e]; simpl; intros Hs; subst; reflexivity. Qed.

Lemma close_files (clip : Clip) (w : World E) : files (snd (close env clip w)) = files w.
Proof. unfold close. destruct (clip_close env clip (engine w)); reflexivity. Qed.

Lemma close_suppressed_files (clip : Clip) (w : World E) :
  files (close_suppressed env clip w) = files w.
Proof. apply close_files. Qed.

Lemma file_exists_unlink_same (p : string) (w : World E) :
  file_exists p (unlink_if_exists p w) = false.
Proof.
  unfold file_exists, unlink_if_exists; simpl.
  induction (files w) as [|q l IH]; simpl; trivial.
  destruct (String.eqb p q) eqn:Hq; simpl; trivial.
  rewrite Hq; simpl; exact IH.
Qed.

Lemma file_exists_unlink_other (p q : string) (w : World E) :
  p <> q -> file_exists p (unlink_if_exists q w) = file_exists p w.
Proof.
  intros Hpq. unfold file_exists, unlink_if_exists; simpl.
  induction (files w) as [|r l IH]; simpl; trivial.
  destruct (String.eqb q r) eqn:Hq; simpl.
  - apply String.eqb_eq in Hq; subst r.
    rewrite (proj2 (String.eqb_neq p q) Hpq); simpl; exact IH.
  - rewrite IH; reflexivity.
Qed.

Lemma file_exists_same_files (p : string) (w w' : World E) :
  files w = files w' -> file_exists p w = file_exists p w'.
Proof. unfold file_exists; intros ->; reflexivity. Qed.

Lemma encode_and_cleanup_eq (job : Job Clip) (w : World E) :
  encode_and_cleanup env job w =
  (match fst (write_videofile env (job_processed job) (job_output_path job)
                (job_args job) w) with
   | Ok u => Ok u
   | Err exc => Err (ProcessingError ("Unable to export clip: " ++ exn_str exc)%string)
   end,
   after_cleanup env job (snd (write_videofile env (job_processed job) (job_output_path job)
                             (job_args job) w))).
Proof.
  unfold encode_and_cleanup, after_cleanup.
  destruct (write_videofile env _ _ _ w) as [r w1]; reflexivity.
Qed.

(** The output path of a prepared job. *)
Lemma prepare_job_output_path (clip : Clip) (source : string) (ts te : float)
    (output_dir : string) (resolution : Z * Z) (preset audio_bitrate : string)
    (w w' : World E) (job : Job Clip) :
  prepare_job env clip source ts te output_dir resolution preset audio_bitrate w
  = (Ok job, w') ->
  exists a b, Py.int ts = Ok a /\ Py.int te = Ok b /\
    job_output_path job = path_join env output_dir (output_filename env source a b).
Proof.
  unfold prepare_job, mbind, lift, ret.
  destruct (clip_subclip env clip ts te) as [sub|]; [|discriminate].
  destruct (_apply_vertical_transform env sub resolution) as [pr|]; [|discriminate].
  destruct (Py.int ts) as [a|]; [|discriminate].
  destruct (Py.int te) as [b|]; [|discriminate].
  destruct (named_temporary_file env ".m4a" w) as [[t|] w1]; [|discriminate].
  intros [= <- _]. exists a, b. repeat split.
Qed.

Section ExportCall.
Variables (source : string) (start end_ : float) (output_dir : string)
  (resolution : Z * Z) (preset audio_bitrate : string).

Local Abbreviation export :=
  (export_vertical_clip env source start end_ output_dir resolution preset audio_bitrate).
Local Abbreviation prepare clip times :=
  (prepare_job env clip source (fst times) (snd times) output_dir resolution preset
     audio_bitrate).
Local Abbreviation wrapped exc :=
  (ProcessingError ("Unable to export clip: " ++ exn_str exc)%string).

(** C9: a failure of the metadata read or of the timecode validation comes
    out of export_vertical_clip as the callee raised it, as do a failure to
    create the output directory, to open the source and to prepare the job;
    a failure of the encoder comes out wrapped in a ProcessingError that
    carries its message (the source clip closing without an error of its
    own). *)
Theorem export_failure_sources (w : World E) :
  (forall e w1,
      mkdir_parents env output_dir w = (Err e, w1) -> export w = (Err e, w1)) /\
  (forall u w1 e w2,
      mkdir_parents env output_dir w = (Ok u, w1) ->
      get_video_metadata env source w1 = (Err e, w2) ->
      export w = (Err e, w2)) /\
  (forall u w1 md w2 e,
      mkdir_parents env output_dir w = (Ok u, w1) ->
      get_video_metadata env source w1 = (Ok md, w2) ->
      sanitize_timecodes start end_ (md_duration md) default_min_length = Err e ->
      export w = (Err e, w2)) /\
  (forall u w1 md w2 times e w3,
      mkdir_parents env output_dir w = (Ok u, w1) ->
      get_video_metadata env source w1 = (Ok md, w2) ->
      sanitize_timecodes start end_ (md_duration md) default_min_length = Ok times ->
      video_file_clip env source w2 = (Err e, w3) ->
      export w = (Err e, w3)) /\
  (forall u w1 md w2 times clip w3 e w4 u' w5,
      mkdir_parents env output_dir w = (Ok u, w1) ->
      get_video_metadata env source w1 = (Ok md, w2) ->
      sanitize_timecodes start end_ (md_duration md) default_min_length = Ok times ->
      video_file_clip env source w2 = (Ok clip, w3) ->
      prepare clip times w3 = (Err e, w4) ->
      close env clip w4 = (Ok u', w5) ->
      export w = (Err e, w5)) /\
  (forall u w1 md w2 times clip w3 job w4 exc w5 u' w6,
      mkdir_parents env output_dir w = (Ok u, w1) ->
      get_video_metadata env source w1 = (Ok md, w2) ->
      sanitize_timecodes start end_ (md_duration md) default_min_length = Ok times ->
      video_file_clip env source w2 = (Ok clip, w3) ->
      prepare clip times w3 = (Ok job, w4) ->
      write_videofile env (job_processed job) (job_output_path job) (job_args job) w4
      = (Err exc, w5) ->
      close env clip (after_cleanup env job w5) = (Ok u', w6) ->
      export w = (Err (wrapped exc), w6)).
Proof.
  unfold export_vertical_clip, with_video_file_clip, mbind, lift, ret.
  repeat split; intros.
  all: repeat match goal with
         | H : ?c = (_, _) |- context [?c] => rewrite H
         | H : ?c = Ok _ |- context [?c] => rewrite H
         | H : ?c = Err _ |- context [?c] => rewrite H
         end; try reflexivity.
  rewrite encode_and_cleanup_eq.
  repeat match goal with
         | H : ?c = (_, _) |- context [?c] => rewrite H
         end; cbn [fst snd].
  repeat match goal with
         | H : ?c = (_, _) |- context [?c] => rewrite H
         end. reflexivity.
Qed.

(** C4, amended: when the encoder fails, export_vertical_clip fails, the
    temporary audio file is gone, and every other path, the output path
    among them, is left as the encoder left it. *)
Theorem export_encode_failure_cleanup
    (w w1 w2 w3 w4 w5 : World E) (u : unit) (md : Metadata) (times : float * float)
    (clip : Clip) (job : Job Clip) (exc : exn) :
  mkdir_parents env output_dir w = (Ok u, w1) ->
  get_video_metadata env source w1 = (Ok md, w2) ->
  sanitize_timecodes start end_ (md_duration md) default_min_length = Ok times ->
  video_file_clip env source w2 = (Ok clip, w3) ->
  prepare clip times w3 = (Ok job, w4) ->
  write_videofile env (job_processed job) (job_output_path job) (job_args job) w4
  = (Err exc, w5) ->
  (exists e, fst (export w) = Err e) /\
  file_exists (temp_audiofile (job_args job)) (snd (export w)) = false /\
  (forall p, p <> temp_audiofile (job_args job) ->
             file_exists p (snd (export w)) = file_exists p w5).
Proof.
  intros Hmk Hmd Hsan Hopen Hprep Hwrite.
  assert (Hexp : export w =
                 match close env clip (after_cleanup env job w5) with
                 | (Ok _, w6) => (Err (wrapped exc), w6)
                 | (Err e, w6) => (Err e, w6)
                 end).
  { unfold export_vertical_clip, with_video_file_clip, mbind, lift, ret.
    rewrite Hmk, Hmd, Hsan, Hopen, Hprep, encode_and_cleanup_eq, Hwrite. cbn [fst snd].
    destruct (close env clip (after_cleanup env job w5)) as [[?|?] ?]; reflexivity. }
  assert (Hfiles : files (snd (export w)) = files (after_cleanup env job w5)).
  { rewrite Hexp. rewrite <- (close_files clip (after_cleanup env job w5)).
    destruct (close env clip (after_cleanup env job w5)) as [[?|?] ?]; reflexivity. }
  split; [|split].
  - rewrite Hexp. destruct (close env clip (after_cleanup env job w5)) as [[?|?] ?];
      eexists; reflexivity.
  - rewrite (file_exists_same_files _ _ _ Hfiles). apply file_exists_unlink_same.
  - intros p Hp. rewrite (file_exists_same_files _ _ _ Hfiles).
    unfold after_cleanup. rewrite file_exists_unlink_other by exact Hp.
    apply file_exists_same_files.
    rewrite !close_suppressed_files. reflexivity.
Qed.

(** C8: the path a successful export returns is the output directory joined
    with short_{stem}_{floor(start')}_{floor(end')}.mp4, for the stem of the
    source and the sanitized window (start', end'). *)
Theorem export_output_path (w w' : World E) (p : string) :
  export w = (Ok p, w') ->
  exists u w1 md w2 start' end' a b,
    mkdir_parents env output_dir w = (Ok u, w1) /\
    get_video_metadata env source w1 = (Ok md, w2) /\
    sanitize_timecodes start end_ (md_duration md) default_min_length
    = Ok (start', end') /\
    Py.floor start' = Ok a /\ Py.floor end' = Ok b /\
    p = path_join env output_dir
          ("short_" ++ path_stem env source ++ "_" ++ str_of_int a ++ "_"
           ++ str_of_int b ++ ".mp4")%string.
Proof.
  unfold export_vertical_clip, with_video_file_clip, mbind, lift, ret.
  destruct (mkdir_parents env output_dir w) as [[u|] w1] eqn:Hmk; [|discriminate].
  destruct (get_video_metadata env source w1) as [[md|] w2] eqn:Hmd; [|discriminate].
  destruct (sanitize_timecodes start end_ (md_duration md) default_min_length)
    as [[ts te]|] eqn:Hsan; [|discriminate].
  destruct (video_file_clip env source w2) as [[clip|] w3]; [|discriminate].
  cbn [fst snd].
  destruct (prepare_job env clip source ts te output_dir resolution preset audio_bitrate w3)
    as [[job|] w4] eqn:Hprep.
  2:{ destruct (close env clip w4) as [[u2|e2] w6]; discriminate. }
  destruct (encode_and_cleanup env job w4) as [[u1|e1] w5].
  2:{ destruct (close env clip w5) as [[u2|e2] w6]; discriminate. }
  destruct (close env clip w5) as [[u2|e2] w6]; [|discriminate].
  intros [= <- _].
  destruct (prepare_job_output_path _ _ _ _ _ _ _ _ _ _ _ Hprep) as (a & b & Ha & Hb & Hp).
  destruct (sanitize_ok_signs _ _ _ _ _ _ Hsan) as [[_ Hs] He].
  exists u, w1, md, w2, ts, te, a, b.
  split; [reflexivity|]. split; [exact Hmd|]. split; [exact Hsan|].
  split; [|split].
  - rewrite <- (int_floor_nonneg ts Hs). exact Ha.
  - rewrite <- (int_floor_nonneg te); [exact Hb|].
    destruct He as [He|[_ He]]; trivial. destruct te; try discriminate; reflexivity.
  - exact Hp.
Qed.

End ExportCall.

End ExportFacts.

(** ** The export on the small engine *)

Section ExportDemo.
Import PyFloat Demo.

Local Abbreviation run ok src s e :=
  (export_vertical_clip (toy_env ok) src s e "out" (1080, 1920) "medium" "128k" w0).

(** C4, as stated, fails: the encoder creates the output file and then
    fails; export_vertical_clip raises the wrapped error and the partial
    output file is still there. *)
Lemma export_leaves_partial_output :
  fst (run false "video.mp4" minus5 f25_1)
  = Err (ProcessingError "Unable to export clip: ffmpeg exited with status 1") /\
  file_exists "out/short_video_0_25.mp4" (snd (run false "video.mp4" minus5 f25_1)) = true.
Proof. split; vm_compute; reflexivity. Qed.

(** C4, amended, on the engine whose encoder fails: the temporary audio file
    is gone and the output path is as the encoder left it. *)
Lemma export_encode_failure_cleanup_witness :
  (exists e, fst (run false "video.mp4" minus5 f25_1) = Err e) /\
  file_exists "/tmp/tmp0.m4a" (snd (run false "video.mp4" minus5 f25_1)) = false /\
  file_exists "out/short_video_0_25.mp4" (snd (run false "video.mp4" minus5 f25_1))
  = file_exists "out/short_video_0_25.mp4"
      (mkWorld ["out/short_video_0_25.mp4"; "/tmp/tmp0.m4a"; "video.mp4"] 2%nat).
Proof.
  destruct (export_encode_failure_cleanup (toy_env false) "video.mp4" minus5 f25_1 "out"
              (1080, 1920) "medium" "128k" w0
              _ _ _ _ _ tt _ _ _ _ _
              eq_refl eq_refl eq_refl eq_refl eq_refl eq_refl) as (H1 & H2 & H3).
  split; [exact H1|]. split; [exact H2|].
  apply H3. discriminate.
Defined.

(** C8 on the engine whose encoder succeeds: exporting (-5.0, 25.1) from
    video.mp4 into out returns out/short_video_0_25.mp4. *)
Lemma export_output_path_witness :
  run true "video.mp4" minus5 f25_1
  = (Ok "out/short_video_0_25.mp4", mkWorld ["out/short_video_0_25.mp4"; "video.mp4"] 0%nat) /\
  exists u w1 md w2 start' end' a b,
    mkdir_parents (toy_env true) "out" w0 = (Ok u, w1) /\
    get_video_metadata (toy_env true) "video.mp4" w1 = (Ok md, w2) /\
    sanitize_timecodes minus5 f25_1 (md_duration md) default_min_length
    = Ok (start', end') /\
    Py.floor start' = Ok a /\ Py.floor end' = Ok b /\
    "out/short_video_0_25.mp4"
    = path_join (toy_env true) "out"
        ("short_" ++ path_stem (toy_env true) "video.mp4" ++ "_" ++ str_of_int a ++ "_"
         ++ str_of_int b ++ ".mp4")%string.
Proof.
  split; [vm_compute; reflexivity|].
  apply (export_output_path (toy_env true) "video.mp4" minus5 f25_1 "out" (1080, 1920)
           "medium" "128k" w0
           (mkWorld ["out/short_video_0_25.mp4"; "video.mp4"] 0%nat)).
  vm_compute; reflexivity.
Defined.

(** C9 on the engine whose encoder fails: a missing source and a window that
    is too short come out as get_video_metadata and sanitize_timecodes raised
    them; the encoder's failure comes out wrapped. *)
Lemma export_failure_sources_witness :
  run false "missing.mp4" minus5 f25_1
  = (Err (ProcessingError "Video not found at missing.mp4"), w0) /\
  run false "video.mp4" f100 f120
  = (Err SelectionTooShort, w0) /\
  run false "video.mp4" minus5 f25_1
  = (Err (ProcessingError "Unable to export clip: ffmpeg exited with status 1"),
     mkWorld ["out/short_video_0_25.mp4"; "video.mp4"] 0%nat).
Proof.
  split; [|split].
  - eapply (proj1 (proj2 (export_failure_sources (toy_env false) "missing.mp4" minus5 f25_1
                            "out" (1080, 1920) "medium" "128k" w0)));
      reflexivity.
  - eapply (proj1 (proj2 (proj2 (export_failure_sources (toy_env false) "video.mp4" f100 f120
                            "out" (1080, 1920) "medium" "128k" w0))));
      reflexivity.
  - exact (proj2 (proj2 (proj2 (proj2 (proj2 (export_failure_sources (toy_env false)
                            "video.mp4" minus5 f25_1
                            "out" (1080, 1920) "medium" "128k" w0)))))
             tt _ _ _ _ _ _ _ _ (RuntimeError "ffmpeg exited with status 1") _ tt _
             eq_refl eq_refl eq_refl eq_refl eq_refl eq_refl eq_refl).
Defined.

End ExportDemo.

(** ** More on binary64: signs of products and quotients *)

Module FloatSigns.
Import PyFloat FloatFacts.

Lemma of_Z_sign (n : Z) : 0 < n -> has_sign false (of_Z n).
Proof.
  intros Hn. unfold of_Z.
  replace false with (n <? 0) at 1 by (apply Z.ltb_ge; lia).
  apply binary_normalize_sign.
Qed.

Lemma of_ratio_sign (p : Z) (q : positive) : 0 < p -> has_sign false (of_ratio p q).
Proof.
  destruct p as [|m|m]; try lia; intros _. unfold of_ratio.
  exact (div_sign false false m q 0 0).
Qed.

(** A product of two values that are not negative is NaN or not negative. *)
Lemma mul_nonneg (a b : float) :
  has_sign false a -> has_sign false b ->
  is_nan (a * b)%pf = true \/ has_sign false (a * b)%pf.
Proof.
  intros [Na Sa] [Nb Sb].
  destruct a as [sa|sa| |sa ma ea], b as [sb|sb| |sb mb eb]; simpl in *;
    try discriminate; subst; auto; try (right; split; reflexivity).
  right. apply (binary_round_aux_sign false); lia.
Qed.

(** A quotient of two values that are not negative is NaN or not negative. *)
Lemma div_nonneg (a b : float) :
  has_sign false a -> has_sign false b ->
  is_nan (a / b)%pf = true \/ has_sign false (a / b)%pf.
Proof.
  intros [Na Sa] [Nb Sb].
  destruct a as [sa|sa| |sa ma ea], b as [sb|sb| |sb mb eb]; simpl in Na, Sa, Nb, Sb;
    try discriminate; subst; auto; try (right; split; reflexivity).
  right. exact (div_sign false false ma mb ea eb).
Qed.

Lemma nearest_even_nonneg (m e : Z) : 0 <= m -> 0 <= Py.nearest_even m e.
Proof.
  intros Hm. unfold Py.nearest_even.
  destruct (0 <=? e) eqn:He.
  - apply Z.leb_le in He. apply Z.mul_nonneg_nonneg; [lia|]. apply Z.pow_nonneg; lia.
  - apply Z.leb_gt in He.
    assert (Hd : 0 < 2 ^ (- e)) by (apply Z.pow_pos_nonneg; lia).
    assert (Hq : 0 <= m / 2 ^ (- e)) by (apply Z.div_pos; lia).
    destruct (2 * (m mod 2 ^ (- e)) ?= 2 ^ (- e)); try lia.
    destruct (Z.even (m / 2 ^ (- e))); lia.
Qed.

(** Rounding a value that is not negative to an integer gives one that is
    not negative. *)
Lemma round_nonneg (x : float) (n : Z) :
  is_nan x = true \/ has_sign false x -> Py.round x = Ok n -> 0 <= n.
Proof.
  intros [Hn|[Hn Hs]]; destruct x as [s|s| |s m e]; simpl in *; try discriminate;
    subst; intros [= <-]; try lia.
  apply nearest_even_nonneg; lia.
Qed.

End FloatSigns.

(** ** More on the crop geometry *)

Section CropShape.
Import PyFloat FloatFacts FloatSigns.

Lemma positive_dimensions_pass (width height target_width target_height : Z) :
  0 < width -> 0 < height -> 0 < target_width -> 0 < target_height ->
  (width <=? 0) || (height <=? 0) || (target_width <=? 0) || (target_height <=? 0) = false.
Proof.
  intros. rewrite !orb_false_iff. repeat split; apply Z.leb_gt; lia.
Qed.

Lemma int_truediv_sign (a b : Z) (x : float) :
  0 < a -> 0 < b -> Py.int_truediv a b = Ok x -> has_sign false x.
Proof.
  intros Ha Hb. destruct b as [|q|q]; try lia. unfold Py.int_truediv.
  destruct (is_inf (of_ratio a q)); [discriminate|]. intros [= <-].
  apply of_ratio_sign; trivial.
Qed.

Lemma float_of_int_sign (n : Z) (x : float) :
  0 < n -> Py.float_of_int n = Ok x -> has_sign false x.
Proof.
  intros Hn. unfold Py.float_of_int.
  destruct (is_inf (of_Z n)); [discriminate|]. intros [= <-].
  apply of_Z_sign; trivial.
Qed.

(** The three shapes of a returned box: the full frame, a horizontal crop
    of some width [n], or a vertical crop of some height [n], centered by
    floor division. *)
Lemma compute_crop_box_shape (width height target_width target_height : Z) (b : CropBox) :
  compute_crop_box width height target_width target_height = Ok b ->
  0 < width /\ 0 < height /\ 0 < target_width /\ 0 < target_height /\
  (b = mkCropBox 0 0 width height \/
   (exists n, 0 <= n /\
      b = mkCropBox ((width - n) / 2) 0 ((width - n) / 2 + n) height) \/
   (exists n, 0 <= n /\
      b = mkCropBox 0 ((height - n) / 2) width ((height - n) / 2 + n))).
Proof.
  unfold compute_crop_box.
  destruct ((width <=? 0) || (height <=? 0) || (target_width <=? 0) || (target_height <=? 0))
    eqn:Hg; [discriminate|].
  rewrite !orb_false_iff in Hg. destruct Hg as [[[Hw Hh] Htw] Hth].
  apply Z.leb_gt in Hw, Hh, Htw, Hth.
  destruct (Py.int_truediv width height) as [sr|] eqn:Hsr; [|discriminate].
  destruct (Py.int_truediv target_width target_height) as [dr|] eqn:Hdr; [|discriminate].
  cbn [bind].
  pose proof (int_truediv_sign _ _ _ Htw Hth Hdr) as Sdr.
  destruct (Py.isclose sr dr rel_tol_1e_3).
  { intros [= <-]. repeat split; trivial. left; reflexivity. }
  destruct (sr >? dr)%pf.
  - destruct (Py.float_of_int height) as [hf|] eqn:Hhf; [|discriminate]. cbn [bind].
    destruct (Py.round (hf * dr)%pf) as [n|] eqn:Hn; [|discriminate]. cbn [bind].
    intros [= <-]. repeat split; trivial. right; left. exists n. split; [|reflexivity].
    eapply round_nonneg; [|exact Hn].
    apply mul_nonneg; [exact (float_of_int_sign _ _ Hh Hhf)|exact Sdr].
  - destruct (Py.float_of_int width) as [wf|] eqn:Hwf; [|discriminate]. cbn [bind].
    destruct (Py.float_truediv wf dr) as [q|] eqn:Hq; [|discriminate]. cbn [bind].
    destruct (Py.round q) as [n|] eqn:Hn; [|discriminate]. cbn [bind].
    intros [= <-]. repeat split; trivial. right; right. exists n. split; [|reflexivity].
    eapply round_nonneg; [|exact Hn].
    unfold Py.float_truediv in Hq. destruct (dr =? zero)%pf; [discriminate|].
    injection Hq as <-.
    apply div_nonneg; [exact (float_of_int_sign _ _ Hw Hwf)|exact Sdr].
Qed.

(** X1: compute_crop_box raises the ProcessingError 'Invalid dimensions for
    crop computation.' exactly when one of its four arguments is not
    positive. *)
Theorem crop_invalid_dimensions_iff (width height target_width target_height : Z) :
  compute_crop_box width height target_width target_height = Err InvalidDimensions <->
  (width <= 0 \/ height <= 0 \/ target_width <= 0 \/ target_height <= 0).
Proof.
  unfold compute_crop_box.
  destruct ((width <=? 0) || (height <=? 0) || (target_width <=? 0) || (target_height <=? 0))
    eqn:Hg.
  - split; [intros _|reflexivity].
    rewrite !orb_true_iff, !Z.leb_le in Hg. tauto.
  - rewrite !orb_false_iff, !Z.leb_gt in Hg.
    split; [|lia]. intros H. exfalso. revert H.
    unfold Py.int_truediv, Py.float_of_int, Py.float_truediv, Py.round.
    destruct height as [|ph|ph]; try lia. destruct target_height as [|pt|pt]; try lia.
    destruct (is_inf (of_ratio width ph)); [discriminate|].
    destruct (is_inf (of_ratio target_width pt)); [discriminate|]. cbn [bind].
    destruct (Py.isclose _ _ _); [discriminate|].
    destruct (_ >? _)%pf.
    + destruct (is_inf (of_Z (Z.pos ph))); [discriminate|]. cbn [bind].
      destruct (_ * _)%pf; discriminate.
    + destruct (is_inf (of_Z width)); [discriminate|]. cbn [bind].
      destruct (_ =? zero)%pf; [discriminate|]. cbn [bind].
      destruct (_ / _)%pf; discriminate.
Qed.

(** X2: a returned box keeps one axis of the source in full, is centered on
    the other to within one pixel, and has no negative side. *)
Theorem crop_box_one_axis_centered
    (width height target_width target_height : Z) (b : CropBox) :
  compute_crop_box width height target_width target_height = Ok b ->
  ((x1 b = 0 /\ x2 b = width) \/ (y1 b = 0 /\ y2 b = height)) /\
  0 <= (width - x2 b) - x1 b <= 1 /\
  0 <= (height - y2 b) - y1 b <= 1 /\
  0 <= box_width b /\ 0 <= box_height b.
Proof.
  intros H. apply compute_crop_box_shape in H.
  destruct H as (Hw & Hh & _ & _ & [->|[(n & Hn & ->)|(n & Hn & ->)]]);
    unfold box_width, box_height; cbn [x1 x2 y1 y2].
  - repeat split; lia.
  - pose proof (Z.div_mod (width - n) 2 ltac:(lia)) as Hdiv.
    pose proof (Z.mod_pos_bound (width - n) 2 ltac:(lia)) as Hmod.
    repeat split; lia.
  - pose proof (Z.div_mod (height - n) 2 ltac:(lia)) as Hdiv.
    pose proof (Z.mod_pos_bound (height - n) 2 ltac:(lia)) as Hmod.
    repeat split; lia.
Qed.

(** X2 at compute_crop_box(1920, 1080, 1080, 1920). *)
Lemma crop_box_one_axis_centered_witness :
  compute_crop_box 1920 1080 1080 1920 = Ok (mkCropBox 656 0 1264 1080) /\
  ((656 = 0 /\ 1264 = 1920) \/ (0 = 0 /\ 1080 = 1080)) /\
  0 <= (1920 - 1264) - 656 <= 1 /\
  0 <= (1080 - 1080) - 0 <= 1 /\
  0 <= box_width (mkCropBox 656 0 1264 1080) /\
  0 <= box_height (mkCropBox 656 0 1264 1080).
Proof.
  split; [vm_compute; reflexivity|].
  apply (crop_box_one_axis_centered 1920 1080 1080 1920 (mkCropBox 656 0 1264 1080)).
  vm_compute; reflexivity.
Defined.

End CropShape.

(** ** More on the timecode validator *)

Section ValidatorMore.
Import PyFloat FloatFacts.

(** [<=] and [<] compose. *)
Lemma compare_le_lt_trans (x y z : float) (c : comparison) :
  SFcompare x y = Some c -> c <> Gt -> SFcompare y z = Some Lt ->
  SFcompare x z = Some Lt.
Proof.
  intros Hxy Hc Hyz.
  apply compare_swap in Hxy, Hyz. simpl in Hyz.
  assert (H : SFcompare z x = Some Gt).
  { destruct x as [sx|sx| |sx mx ex], y as [sy|sy| |sy my ey], z as [sz|sz| |sz mz ez];
      simpl in *; try discriminate;
      try (destruct sx); try (destruct sy); try (destruct sz); simpl in *;
      try discriminate; try reflexivity;
      try (injection Hxy as Hxy; destruct c; simpl in *; congruence).
    all: fold_pos_compare; injection Hxy as Hxy; injection Hyz as Hyz; f_equal;
      destruct (Z.compare_spec ey ex), (Z.compare_spec ez ey), (Z.compare_spec ez ex);
      try discriminate; try lia; try (destruct c; simpl in *; congruence); subst;
      destruct (Pos.compare_spec my mx), (Pos.compare_spec mz my), (Pos.compare_spec mz mx);
      simpl in *; try discriminate; try lia; try (destruct c; simpl in *; congruence). }
  apply compare_swap in H. exact H.
Qed.

Lemma leb_compare (x y : float) :
  (x <=? y)%pf = true -> exists c, SFcompare x y = Some c /\ c <> Gt.
Proof.
  unfold leb, SFleb. destruct (SFcompare x y) as [[ | | ]|]; try discriminate;
    intros _; eexists; split; try reflexivity; discriminate.
Qed.

Lemma ltb_compare (x y : float) : (x <? y)%pf = true -> SFcompare x y = Some Lt.
Proof.
  unfold ltb, SFltb. destruct (SFcompare x y) as [[ | | ]|]; try discriminate; reflexivity.
Qed.

Lemma compare_lt_not_leb (x y : float) : SFcompare x y = Some Lt -> (y <=? x)%pf = false.
Proof. intros H. unfold leb, SFleb. rewrite (compare_swap _ _ _ H). reflexivity. Qed.

Lemma compare_le_not_ltb (x y : float) (c : comparison) :
  SFcompare x y = Some c -> c <> Gt -> (y <? x)%pf = false.
Proof.
  intros H Hc. unfold ltb, SFltb. rewrite (compare_swap _ _ _ H).
  destruct c; simpl; congruence.
Qed.

(** Clamping twice is clamping once. *)
Lemma max_zero_idem (start : float) : Py.max zero (Py.max zero start) = Py.max zero start.
Proof.
  destruct (max_zero_cases start) as [->|[E H]]; [reflexivity|].
  rewrite E. exact E.
Qed.

Lemma min_idem (end_ duration : float) :
  Py.min (Py.min end_ duration) duration = Py.min end_ duration.
Proof.
  destruct (min_cases end_ duration) as [[E H]|[E H]]; rewrite E.
  - unfold Py.min, ltb, SFltb.
    destruct (SFcompare duration duration) as [[ | | ]|] eqn:Hc; try reflexivity.
  - exact E.
Qed.

(** X3: a request is validated as its clamped form: the call with
    (start, end) and the call with (max(0, start), min(end, duration)) have
    the same outcome. *)
Theorem sanitize_of_clamped (start end_ duration min_length : float) :
  sanitize_timecodes (Py.max zero start) (Py.min end_ duration) duration min_length
  = sanitize_timecodes start end_ duration min_length.
Proof.
  unfold sanitize_timecodes. rewrite max_zero_idem, min_idem. reflexivity.
Qed.

(** A clamped window that satisfies the invariant passes every check. *)
Lemma sanitize_accepts_window (start end_ duration min_length : float) :
  time_window_inv (Py.max zero start) (Py.min end_ duration) duration min_length = true ->
  sanitize_timecodes start end_ duration min_length
  = Ok (Py.round_ndigits (Py.max zero start) 3, Py.round_ndigits (Py.min end_ duration) 3).
Proof.
  unfold time_window_inv, sanitize_timecodes.
  set (s := Py.max zero start). set (e := Py.min end_ duration).
  rewrite !andb_true_iff. intros [[[H0s Hse] Hed] Hml].
  apply ltb_compare in Hse.
  destruct (leb_compare _ _ H0s) as (c0 & Hc0 & Hn0).
  destruct (leb_compare _ _ Hed) as (c1 & Hc1 & Hn1).
  destruct (leb_compare _ _ Hml) as (c2 & Hc2 & Hn2).
  pose proof (compare_lt_le_trans _ _ _ _ Hse Hc1 Hn1) as Hsd.
  pose proof (compare_le_lt_trans _ _ _ _ Hc0 Hn0 Hsd) as H0d.
  rewrite (compare_lt_not_leb _ _ H0d).
  rewrite (compare_le_not_ltb _ _ _ Hc2 Hn2).
  change (s >=? duration)%pf with (duration <=? s)%pf.
  rewrite (compare_lt_not_leb _ _ Hsd).
  rewrite (compare_lt_not_leb _ _ Hse). reflexivity.
Qed.

(** X4: every request whose clamped window satisfies the TimeWindow
    invariant is accepted, and what is returned is that window rounded to
    three decimals. *)
Theorem sanitize_accepts_valid_window (start end_ duration min_length : float) :
  time_window_inv (Py.max zero start) (Py.min end_ duration) duration min_length = true ->
  sanitize_timecodes start end_ duration min_length
  = Ok (Py.round_ndigits (Py.max zero start) 3, Py.round_ndigits (Py.min end_ duration) 3).
Proof. exact (sanitize_accepts_window start end_ duration min_length). Qed.

(** X4 at sanitize_timecodes(-5.0, 120.0, duration=100.0). *)
Lemma sanitize_accepts_valid_window_witness :
  time_window_inv (Py.max zero Demo.minus5) (Py.min Demo.f120 Demo.f100) Demo.f100
    default_min_length = true /\
  sanitize_timecodes Demo.minus5 Demo.f120 Demo.f100 default_min_length
  = Ok (zero, Demo.f100).
Proof.
  split; [reflexivity|].
  apply (sanitize_accepts_valid_window Demo.minus5 Demo.f120 Demo.f100 default_min_length).
  reflexivity.
Defined.

(** X5: with min_length > 0 and a duration that is not NaN,
    sanitize_timecodes never raises 'End time must be greater than start
    time.', whatever start and end are (NaN and infinities included): an
    end at or below the start is caught by the length check or by the start
    check first. *)
Theorem sanitize_end_guard_dead (start end_ duration min_length : float) :
  valid start = true -> valid end_ = true -> valid duration = true ->
  is_nan duration = false ->
  (zero <? min_length)%pf = true ->
  sanitize_timecodes start end_ duration min_length <> Err EndNotAfterStart.
Proof.
  intros Vs Ve Vd Nd Hml. unfold sanitize_timecodes.
  destruct (duration <=? zero)%pf; [discriminate|].
  set (s := Py.max zero start). set (e := Py.min end_ duration).
  destruct (e - s <? min_length)%pf eqn:Hlen; [discriminate|].
  destruct (s >=? duration)%pf eqn:Hsd; [discriminate|].
  destruct (e <=? s)%pf eqn:Hes; [|discriminate].
  exfalso.
  pose proof (max_zero_sign start) as [Ns Ss]; fold s in Ns, Ss.
  destruct (compare_total _ _ Ns Nd) as [c Hc].
  assert (c = Lt) as ->.
  { unfold geb, leb, SFleb in Hsd. rewrite (compare_swap _ _ _ Hc) in Hsd.
    destruct c; simpl in Hsd; congruence. }
  destruct (leb_compare _ _ Hes) as (c' & Hc' & Hn').
  assert (Hne : e <> S754_infinity false).
  { intros Heq. rewrite Heq in Hc'.
    destruct s as [ss|ss| |ss ms es]; simpl in Hc', Hc, Ss; try discriminate; subst ss.
    - injection Hc' as <-. congruence.
    - destruct duration; simpl in Hc; try discriminate; destruct s; discriminate.
    - injection Hc' as <-. congruence. }
  assert (Hsub : (e - s <? min_length)%pf = true).
  { apply (sub_nonpos_lt s e min_length (CompOpp c')); trivial.
    - apply max_zero_valid; trivial.
    - apply min_valid; trivial.
    - apply compare_swap; trivial.
    - destruct c'; simpl; congruence. }
  congruence.
Qed.

(** X5 at sanitize_timecodes(20.0, nan, 10.0): the failure is the start
    check's. *)
Lemma sanitize_end_guard_dead_witness :
  valid Demo.f20 = true /\ valid S754_nan = true /\ valid Demo.f10 = true /\
  is_nan Demo.f10 = false /\ (zero <? default_min_length)%pf = true /\
  sanitize_timecodes Demo.f20 S754_nan Demo.f10 default_min_length <> Err EndNotAfterStart.
Proof.
  repeat (split; [reflexivity|]).
  apply (sanitize_end_guard_dead Demo.f20 S754_nan Demo.f10 default_min_length); reflexivity.
Defined.

End ValidatorMore.

(** ** The progress hook *)

Section ProgressHook.
Import PyFloat FloatFacts.



End ProgressHook.

(** ** Choosing a source *)

Section SourceSelection.
Import PyFloat FloatFacts.

Lemma dict_get_set_same {V : Type} (d : dict V) (k : string) (v : V) :
  dict_get (dict_set d k v) k = Some v.
Proof.
  induction d as [|[k' v'] d IH]; simpl.
  - rewrite String.eqb_refl. reflexivity.
  - destruct (String.eqb k k') eqn:Hk; simpl.
    + rewrite String.eqb_refl. reflexivity.
    + rewrite Hk. exact IH.
Qed.

Lemma dict_get_set_other {V : Type} (d : dict V) (k k0 : string) (v : V) :
  k0 <> k -> dict_get (dict_set d k v) k0 = dict_get d k0.
Proof.
  intros Hk. apply String.eqb_neq in Hk.
  induction d as [|[k' v'] d IH]; simpl.
  - rewrite Hk. reflexivity.
  - destruct (String.eqb k k') eqn:Hk'; simpl.
    + apply String.eqb_eq in Hk'; subst k'. rewrite Hk. reflexivity.
    + rewrite IH. reflexivity.
Qed.

Lemma dict_get_pop_same {V : Type} (d : dict V) (k : string) :
  dict_get (dict_pop d k) k = None.
Proof.
  unfold dict_pop. induction d as [|[k' v'] d IH]; simpl; trivial.
  destruct (String.eqb k k') eqn:Hk; simpl; trivial. rewrite Hk. exact IH.
Qed.

Lemma dict_get_pop_other {V : Type} (d : dict V) (k k0 : string) :
  k0 <> k -> dict_get (dict_pop d k) k0 = dict_get d k0.
Proof.
  intros Hk. unfold dict_pop. induction d as [|[k' v'] d IH]; simpl; trivial.
  destruct (String.eqb k k') eqn:Hk'; simpl.
  - apply String.eqb_eq in Hk'; subst k'.
    rewrite (proj2 (String.eqb_neq k0 k) Hk). exact IH.
  - rewrite IH. reflexivity.
Qed.

(** The two adjustments of [default_end] never fire: [min(duration, 30.0)]
    is below 0.7 (or 0.5) only when the duration is. *)
Lemma ge_and_min_lt_false (duration bound : float) :
  (bound <=? lit_30)%pf = true ->
  (duration >=? bound)%pf && (Py.min duration lit_30 <? bound)%pf = false.
Proof.
  intros Hb. change (duration >=? bound)%pf with (bound <=? duration)%pf.
  destruct (bound <=? duration)%pf eqn:Hge; [|reflexivity]. cbn [andb].
  destruct (min_cases duration lit_30) as [[E _]|[E _]]; rewrite E.
  - destruct (leb_compare _ _ Hb) as (c & Hc & Hn). exact (compare_le_not_ltb _ _ _ Hc Hn).
  - destruct (leb_compare _ _ Hge) as (c & Hc & Hn). exact (compare_le_not_ltb _ _ _ Hc Hn).
Qed.

Lemma min_min_30 (duration : float) :
  Py.min duration (Py.min duration lit_30) = Py.min duration lit_30.
Proof.
  destruct (min_cases duration lit_30) as [[E H]|[E H]]; rewrite E.
  - exact E.
  - unfold Py.min, ltb, SFltb.
    destruct (SFcompare duration duration) as [[ | | ]|]; reflexivity.
Qed.

(** The range a new source starts with, branch by branch. *)
Lemma initial_clip_range_unfold (duration : float) :
  initial_clip_range duration =
  if (duration <=? zero)%pf then (zero, lit_0_5) else (zero, Py.min duration lit_30).
Proof.
  unfold initial_clip_range.
  destruct (duration <=? zero)%pf; [reflexivity|].
  rewrite (ge_and_min_lt_false duration lit_0_7 eq_refl).
  rewrite (ge_and_min_lt_false duration lit_0_5 eq_refl).
  rewrite min_min_30. reflexivity.
Qed.

(** X7: for every duration (NaN and infinities included) the clip range a
    new source starts with is (0.0, 0.5) when the duration is not above
    zero and (0.0, min(duration, 30.0)) otherwise: the two branches that
    adjust the end towards 0.7 and 0.5 are never taken. *)
Theorem initial_clip_range_eq (duration : float) :
  initial_clip_range duration =
  if (duration <=? zero)%pf then (zero, lit_0_5) else (zero, Py.min duration lit_30).
Proof. exact (initial_clip_range_unfold duration). Qed.

(** X8: for a duration of at least 0.5 seconds the range a new source
    starts with passes validation: sanitize_timecodes accepts it and keeps
    its start 0.0 and its end min(duration, 30.0), rounded to three
    decimals. *)
Theorem initial_clip_range_valid (duration : float) :
  (lit_0_5 <=? duration)%pf = true ->
  sanitize_timecodes (fst (initial_clip_range duration)) (snd (initial_clip_range duration))
    duration default_min_length
  = Ok (zero, Py.round_ndigits (Py.min duration lit_30) 3).
Proof.
  intros Hd. rewrite initial_clip_range_unfold.
  destruct (leb_compare _ _ Hd) as (c & Hc & Hn).
  assert (H0d : SFcompare zero duration = Some Lt).
  { apply (compare_lt_le_trans zero lit_0_5 duration c); trivial. }
  rewrite (compare_lt_not_leb _ _ H0d). cbn [fst snd].
  set (e := Py.min duration lit_30).
  assert (He : Py.min e duration = e).
  { subst e. destruct (min_cases duration lit_30) as [[E H]|[E H]]; rewrite E.
    - unfold Py.min, ltb, SFltb. rewrite (compare_swap _ _ _ H). reflexivity.
    - unfold Py.min, ltb, SFltb.
      destruct (SFcompare duration duration) as [[ | | ]|]; reflexivity. }
  assert (Hle : exists c', SFcompare lit_0_5 e = Some c' /\ c' <> Gt).
  { subst e. destruct (min_cases duration lit_30) as [[E _]|[E _]]; rewrite E.
    - exists Lt. split; [reflexivity|discriminate].
    - exists c. split; trivial. }
  destruct Hle as (c' & Hc' & Hn').
  assert (H0e : SFcompare zero e = Some Lt).
  { apply (compare_lt_le_trans zero lit_0_5 e c'); trivial. }
  rewrite sanitize_accepts_window; [rewrite He; reflexivity|].
  unfold time_window_inv. change (Py.max zero zero) with zero. rewrite He.
  change (zero <=? zero)%pf with true. cbn [andb].
  unfold ltb, SFltb at 1. rewrite H0e.
  assert (Hed : (e <=? duration)%pf = true).
  { subst e. destruct (min_cases duration lit_30) as [[E H]|[E H]]; rewrite E.
    - unfold leb, SFleb. rewrite H. reflexivity.
    - unfold leb, SFleb. destruct (leb_compare _ _ Hd) as (c1 & Hc1 & _).
      rewrite compare_refl; trivial. destruct duration; simpl in *; congruence. }
  rewrite Hed. cbn [andb].
  assert (Hsub : (e - zero)%pf = e).
  { destruct e as [se|se| |se me ee]; simpl in H0e; try discriminate; reflexivity. }
  rewrite Hsub. change default_min_length with lit_0_5.
  unfold leb, SFleb. rewrite Hc'. destruct c'; congruence.
Qed.

(** X8 at a 100-second source: the range (0.0, 30.0) is accepted. *)
Lemma initial_clip_range_valid_witness :
  (lit_0_5 <=? Demo.f100)%pf = true /\
  sanitize_timecodes (fst (initial_clip_range Demo.f100)) (snd (initial_clip_range Demo.f100))
    Demo.f100 default_min_length
  = Ok (zero, lit_30).
Proof.
  split; [reflexivity|].
  rewrite (initial_clip_range_valid Demo.f100 eq_refl). reflexivity.
Defined.

Section UpdateSource.
Context {E Clip : Type} (env : Env E Clip).

(** X9: when the metadata cannot be read, _update_source raises what
    get_video_metadata raised and leaves the session state as it was; when
    it can, the session holds the new path, title, metadata and initial
    clip range, no generated clip, and every other key as before. *)
Theorem update_source_session (path label : string) (session : dict sval) (w : World E) :
  (forall e w',
      get_video_metadata env path w = (Err e, w') ->
      _update_source env path label session w = (Err e, session, w')) /\
  (forall md w',
      get_video_metadata env path w = (Ok md, w') ->
      exists session',
        _update_source env path label session w = (Ok tt, session', w') /\
        dict_get session' "source_path" = Some (SStr path) /\
        dict_get session' "source_title" = Some (SStr label) /\
        dict_get session' "source_metadata" = Some (SMeta md) /\
        dict_get session' "clip_range"
        = Some (SRange (initial_clip_range (or_else (Some (md_duration md)) zero))) /\
        dict_get session' "generated_clip" = None /\
        (forall k, k <> "source_path" -> k <> "source_title" -> k <> "source_metadata" ->
                   k <> "clip_range" -> k <> "generated_clip" ->
                   dict_get session' k = dict_get session k)).
Proof.
  unfold _update_source, _reset_generated_clip. split.
  - intros e w' ->. reflexivity.
  - intros md w' ->. eexists. split; [reflexivity|].
    repeat split.
    + rewrite dict_get_pop_other by discriminate.
      rewrite !dict_get_set_other by discriminate. apply dict_get_set_same.
    + rewrite dict_get_pop_other by discriminate.
      rewrite !dict_get_set_other by discriminate. apply dict_get_set_same.
    + rewrite dict_get_pop_other by discriminate.
      rewrite !dict_get_set_other by discriminate. apply dict_get_set_same.
    + rewrite dict_get_pop_other by discriminate. apply dict_get_set_same.
    + apply dict_get_pop_same.
    + intros k H1 H2 H3 H4 H5.
      rewrite dict_get_pop_other by exact H5.
      rewrite !dict_get_set_other by assumption. reflexivity.
Qed.


End UpdateSource.

End SourceSelection.

(** ** More on the export *)

Section FileNames.

Lemma str_of_int_inj (a b : Z) : str_of_int a = str_of_int b -> a = b.
Proof.
  unfold str_of_int. intros H.
  assert (Hnz : forall z, Z.to_int z <> Decimal.Pos Decimal.Nil /\
                          Z.to_int z <> Decimal.Neg Decimal.Nil).
  { intros [|p|p]; simpl; split; try discriminate;
      intros [= Hp]; exact (DecimalPos.Unsigned.to_uint_nonnil p Hp). }
  pose proof (NilZero.isi (Z.to_int a) (proj1 (Hnz a)) (proj2 (Hnz a))) as Ha.
  pose proof (NilZero.isi (Z.to_int b) (proj1 (Hnz b)) (proj2 (Hnz b))) as Hb.
  rewrite H in Ha. rewrite Ha in Hb. injection Hb as Hb.
  apply DecimalZ.to_int_inj. exact Hb.
Qed.

(** The characters of a printed int are digits and at most a minus sign. *)
Lemma string_of_uint_chars (d : Decimal.uint) (c : ascii) :
  In c (list_ascii_of_string (NilEmpty.string_of_uint d)) ->
  In c (list_ascii_of_string "0123456789").
Proof.
  induction d; simpl; intros H; try contradiction;
    destruct H as [<-|H]; auto 12; apply IHd in H; simpl in H; exact H.
Qed.

Lemma str_of_int_chars (n : Z) (c : ascii) :
  In c (list_ascii_of_string (str_of_int n)) ->
  In c (list_ascii_of_string "-0123456789").
Proof.
  unfold str_of_int, NilZero.string_of_int, NilZero.string_of_uint.
  destruct (Z.to_int n) as [d|d].
  - destruct d; try (intros H; right; revert H; apply string_of_uint_chars).
    simpl. intros [<-|[]]. auto.
  - simpl. intros [<-|H]; [auto|]. right.
    destruct d; try (revert H; apply string_of_uint_chars).
    simpl in H. destruct H as [<-|[]]. simpl. auto.
Qed.

Lemma append_cancel_l (s a b : string) : (s ++ a = s ++ b)%string -> a = b.
Proof. induction s as [|c s IH]; simpl; [trivial|]. intros [= H]. auto. Qed.

(** Two strings without the character [c], each followed by [c], split a
    string at the same place. *)
Lemma append_split_at (c : ascii) (s t r r' : string) :
  ~ In c (list_ascii_of_string s) -> ~ In c (list_ascii_of_string t) ->
  (s ++ String c r = t ++ String c r')%string -> s = t /\ r = r'.
Proof.
  revert t. induction s as [|a s IH]; intros [|b t]; simpl; intros Hs Ht.
  - intros [= ->]. auto.
  - intros [= -> _]. exfalso. apply Ht. left; reflexivity.
  - intros [= -> _]. exfalso. apply Hs. left; reflexivity.
  - intros [= -> H]. destruct (IH t) as [-> ->]; auto.
Qed.

Context {E Clip : Type} (env : Env E Clip).

(** X11: for one source, the name of the output file determines the two
    integer seconds it was built from: exports of different integer windows
    never share a file name (and exports whose sanitized bounds have the
    same integer parts always do). *)
Theorem output_filename_inj (source : string) (a b a' b' : Z) :
  output_filename env source a b = output_filename env source a' b' <->
  a = a' /\ b = b'.
Proof.
  split; [|intros [-> ->]; reflexivity].
  unfold output_filename. intros H.
  apply append_cancel_l in H. apply append_cancel_l in H.
  apply (append_cancel_l "_") in H.
  change ("_" ++ str_of_int b ++ ".mp4")%string
    with (String "_" (str_of_int b ++ ".mp4")) in H.
  change ("_" ++ str_of_int b' ++ ".mp4")%string
    with (String "_" (str_of_int b' ++ ".mp4")) in H.
  apply append_split_at in H.
  - destruct H as [Ha Hb]. apply str_of_int_inj in Ha.
    change ".mp4" with (String "." "mp4") in Hb.
    apply append_split_at in Hb.
    + destruct Hb as [Hb _]. apply str_of_int_inj in Hb. auto.
    + intros Hc; apply str_of_int_chars in Hc; simpl in Hc;
        repeat (destruct Hc as [Hc|Hc]; [discriminate|]); contradiction.
    + intros Hc; apply str_of_int_chars in Hc; simpl in Hc;
        repeat (destruct Hc as [Hc|Hc]; [discriminate|]); contradiction.
  - intros Hc; apply str_of_int_chars in Hc; simpl in Hc;
      repeat (destruct Hc as [Hc|Hc]; [discriminate|]); contradiction.
  - intros Hc; apply str_of_int_chars in Hc; simpl in Hc;
      repeat (destruct Hc as [Hc|Hc]; [discriminate|]); contradiction.
Qed.

End FileNames.

Section ExportMore.
Import PyFloat FloatFacts.
Context {E Clip : Type} (env : Env E Clip).

(** The full frame for close ratios, for use below. *)
Lemma crop_box_close_ratios
    (width height target_width target_height : Z) (src_ratio dest_ratio : float) :
  0 < width -> 0 < height -> 0 < target_width -> 0 < target_height ->
  Py.int_truediv width height = Ok src_ratio ->
  Py.int_truediv target_width target_height = Ok dest_ratio ->
  Py.isclose src_ratio dest_ratio rel_tol_1e_3 = true ->
  compute_crop_box width height target_width target_height
  = Ok (mkCropBox 0 0 width height).
Proof.
  intros Hw Hh Htw Hth Hs Hd Hclose. unfold compute_crop_box.
  rewrite positive_dimensions_pass by assumption.
  rewrite Hs, Hd. cbn [bind]. rewrite Hclose. reflexivity.
Qed.

(** X12: a clip whose ratio is already close to the target's is resized
    without being cropped; a resolution with a side that is not positive
    makes the transform fail with 'Invalid dimensions for crop
    computation.' before the engine is asked anything. *)
Theorem transform_without_crop (clip : Clip) (target_width target_height : Z) :
  (forall src_ratio dest_ratio,
     0 < clip_w env clip -> 0 < clip_h env clip ->
     0 < target_width -> 0 < target_height ->
     Py.int_truediv (clip_w env clip) (clip_h env clip) = Ok src_ratio ->
     Py.int_truediv target_width target_height = Ok dest_ratio ->
     Py.isclose src_ratio dest_ratio rel_tol_1e_3 = true ->
     _apply_vertical_transform env clip (target_width, target_height)
     = clip_resize env clip (target_width, target_height)) /\
  (target_width <= 0 \/ target_height <= 0 ->
   _apply_vertical_transform env clip (target_width, target_height)
   = Err InvalidDimensions).
Proof.
  unfold _apply_vertical_transform. split.
  - intros sr dr Hw Hh Htw Hth Hs Hd Hc.
    rewrite (crop_box_close_ratios _ _ _ _ _ _ Hw Hh Htw Hth Hs Hd Hc). cbn [bind].
    unfold box_width, box_height. cbn [x1 x2 y1 y2].
    rewrite !Z.sub_0_r, !Z.eqb_refl. reflexivity.
  - intros H. unfold compute_crop_box.
    replace ((clip_w env clip <=? 0) || (clip_h env clip <=? 0) || (target_width <=? 0)
             || (target_height <=? 0)) with true; [reflexivity|].
    symmetry. rewrite !orb_true_iff, !Z.leb_le. tauto.
Qed.

Section ExportCallMore.
Variables (source : string) (start end_ : float) (output_dir : string)
  (resolution : Z * Z) (preset audio_bitrate : string).


End ExportCallMore.

End ExportMore.

(** ** Downloading *)

Section DownloadFacts.
Context {E Clip : Type} (env : Env E Clip) (ydl : Ydl E).
Variables (url output_dir : string) (has_callback : bool).

Local Abbreviation download := (download_video env ydl url output_dir has_callback).
Local Abbreviation extract :=
  (youtube_dl_extract_info ydl url (path_join env output_dir "%(id)s.%(ext)s") has_callback).

(** X15: download_video wraps every failure of the yt-dlp call in a
    DownloadError with the same message, but raises a failure to create the
    output directory as it is. A reported file whose suffix is .mp4 is
    returned under its own path, with the reported title or else the
    path's stem; in general the returned path has suffix .mp4, or no
    extension was reported, or it is the path pathlib made with the
    reported extension as suffix. *)
Theorem download_failure_sources (w : World E) :
  (forall e w1,
      mkdir_parents env output_dir w = (Err e, w1) -> download w = (Err e, w1)) /\
  (forall u w1 exc w2,
      mkdir_parents env output_dir w = (Ok u, w1) ->
      extract w1 = (Err exc, w2) ->
      download w = (Err (DownloadError (exn_str exc)), w2)) /\
  (forall u w1 info w2 f,
      mkdir_parents env output_dir w = (Ok u, w1) ->
      extract w1 = (Ok info, w2) ->
      info_filename info = Some f -> f <> "" -> path_suffix ydl f = ".mp4" ->
      download w
      = (Ok (mkDownloadResult f
               (match info_title info with Some t => t | None => path_stem env f end)
               (info_duration info) (info_thumbnail info)), w2)) /\
  (forall u w1 info w2 r w',
      mkdir_parents env output_dir w = (Ok u, w1) ->
      extract w1 = (Ok info, w2) ->
      download w = (Ok r, w') ->
      path_suffix ydl (dr_path r) = ".mp4" \/
      str_truthy (info_ext info) = false \/
      exists p ext, info_ext info = Some ext /\
                    path_with_suffix ydl p ("." ++ ext) = Ok (dr_path r)).
Proof.
  unfold download_video, mbind, lift, ret. repeat split.
  - intros e w1 ->. reflexivity.
  - intros u w1 exc w2 -> ->. reflexivity.
  - intros u w1 info w2 f -> -> Hf Hne Hsuf. rewrite Hf. cbn [str_truthy].
    destruct (String.eqb_spec f ""); [contradiction|]. cbn [negb].
    rewrite Hsuf. reflexivity.
  - intros u w1 info w2 r w' -> ->.
    destruct (if str_truthy (info_filename info) then _ else _) as [[fp|e] w3];
      [|discriminate].
    destruct (String.eqb_spec (path_suffix ydl fp) ".mp4") as [Hs|Hs]; cbn [negb andb].
    + intros [= <- _]. left. exact Hs.
    + destruct (str_truthy (info_ext info)) eqn:Hext.
      * destruct (info_ext info) as [ext|] eqn:Hi; [|discriminate].
        destruct (path_with_suffix ydl fp ("." ++ ext)) as [fp'|e] eqn:Hws; [|discriminate].
        intros [= <- _]. right. right. exists fp, ext. split; [reflexivity|exact Hws].
      * intros _. right. left. reflexivity.
Qed.

End DownloadFacts.

Section DownloadDemo.
Import Demo DemoApp.

(** X15 on the toy yt-dlp: an unavailable video comes out as a
    DownloadError, a directory that cannot be created as the OSError, and
    an MP4 under its own path and title. *)
Lemma download_failure_sources_witness :
  download_video (toy_env true) (toy_ydl false) "https://youtu.be/abc" "downloads" true w0
  = (Err (DownloadError "Video unavailable"), w0) /\
  download_video readonly_env (toy_ydl true) "https://youtu.be/abc" "downloads" true w0
  = (Err (OSError "Read-only file system"), w0) /\
  download_video (toy_env true) toy_ydl_mp4 "https://youtu.be/abc" "downloads" true w0
  = (Ok (mkDownloadResult "downloads/abc.mp4" "A title" (Some (PInt 100)) None),
     mkWorld ["downloads/abc.mp4"; "video.mp4"] 0%nat).
Proof.
  split; [|split].
  - exact (proj1 (proj2 (download_failure_sources (toy_env true) (toy_ydl false)
             "https://youtu.be/abc" "downloads" true w0))
             tt _ (RuntimeError "Video unavailable") _ eq_refl eq_refl).
  - exact (proj1 (download_failure_sources readonly_env (toy_ydl true)
             "https://youtu.be/abc" "downloads" true w0) _ _ eq_refl).
  - refine (proj1 (proj2 (proj2 (download_failure_sources (toy_env true) toy_ydl_mp4
             "https://youtu.be/abc" "downloads" true w0)))
             tt _ (mkYdlInfo (Some "downloads/abc.mp4") (Some "mp4") (Some "A title")
                     (Some (PInt 100)) None) _ _ eq_refl eq_refl eq_refl _ eq_refl).
    discriminate.
Defined.

End DownloadDemo.

(** ** Releasing the clips *)

Section Release.
Context {E Clip : Type} (env : Env E Clip).

(** X16: get_video_metadata closes the clip it opened on every path: the
    world it leaves, whether it returns or raises, is the one closing the
    clip made of the world after the file size was asked for. When the
    clip cannot be opened there is nothing to close. *)
Theorem get_video_metadata_closes_clip (path : string) (w : World E) :
  file_exists path w = true ->
  (forall clip w1,
      video_file_clip env path w = (Ok clip, w1) ->
      snd (get_video_metadata env path w)
      = snd (close env clip (snd (stat_size env path w1)))) /\
  (forall e w1,
      video_file_clip env path w = (Err e, w1) ->
      snd (get_video_metadata env path w) = w1).
Proof.
  intros Hex. unfold get_video_metadata, with_video_file_clip, mbind, ret.
  rewrite Hex. cbn [negb]. split.
  - intros clip w1 ->.
    destruct (stat_size env path w1) as [[size|e] w2]; cbn [snd];
      destruct (close env clip w2) as [[u|e'] w3]; cbn [snd];
      try reflexivity;
      match goal with |- context [match ?x with _ => _ end] => destruct x end;
      reflexivity.
  - intros e w1 ->. destruct e; reflexivity.
Qed.

Section ReleaseExport.
Variables (source : string) (start end_ : float) (output_dir : string)
  (resolution : Z * Z) (preset audio_bitrate : string).

Local Abbreviation export :=
  (export_vertical_clip env source start end_ output_dir resolution preset audio_bitrate).
Local Abbreviation prepare clip times :=
  (prepare_job env clip source (fst times) (snd times) output_dir resolution preset
     audio_bitrate).

(** X13: once export_vertical_clip has opened the source it closes it
    last on every path. When trimming, transforming or naming fails, the
    world left is the one closing the source made of the world at the
    failure. Once the encoder has been reached, whether it succeeds or
    fails, the processed clip and the trimmed clip are closed, the
    temporary audio file is removed and then the source is closed: the
    temporary file no longer exists and every other path is as the encoder
    left it. *)
Theorem export_releases_resources
    (w w1 w2 w3 : World E) (u : unit) (md : Metadata) (times : float * float)
    (clip : Clip) :
  mkdir_parents env output_dir w = (Ok u, w1) ->
  get_video_metadata env source w1 = (Ok md, w2) ->
  sanitize_timecodes start end_ (md_duration md) default_min_length = Ok times ->
  video_file_clip env source w2 = (Ok clip, w3) ->
  (forall e w4,
      prepare clip times w3 = (Err e, w4) ->
      snd (export w) = snd (close env clip w4)) /\
  (forall job w4 r w5,
      prepare clip times w3 = (Ok job, w4) ->
      write_videofile env (job_processed job) (job_output_path job) (job_args job) w4
      = (r, w5) ->
      snd (export w)
      = snd (close env clip
               (unlink_if_exists (temp_audiofile (job_args job))
                  (close_suppressed env (job_subclip job)
                     (close_suppressed env (job_processed job) w5)))) /\
      file_exists (temp_audiofile (job_args job)) (snd (export w)) = false /\
      (forall p, p <> temp_audiofile (job_args job) ->
                 file_exists p (snd (export w)) = file_exists p w5)).
Proof.
  intros Hmk Hmd Hsan Hopen. split.
  - intros e w4 Hprep.
    unfold export_vertical_clip, with_video_file_clip, mbind, lift, ret.
    rewrite Hmk, Hmd, Hsan, Hopen, Hprep.
    destruct (close env clip w4) as [[?|?] ?]; reflexivity.
  - intros job w4 r w5 Hprep Hwrite.
    assert (Hw : snd (export w) = snd (close env clip (after_cleanup env job w5))).
    { unfold export_vertical_clip, with_video_file_clip, mbind, lift, ret.
      rewrite Hmk, Hmd, Hsan, Hopen, Hprep, encode_and_cleanup_eq, Hwrite. cbn [fst snd].
      destruct r as [u'|e];
        destruct (close env clip (after_cleanup env job w5)) as [[?|?] ?]; reflexivity. }
    split; [exact Hw|].
    assert (Hfiles : files (snd (export w)) = files (after_cleanup env job w5)).
    { rewrite Hw. apply close_files. }
    split.
    + rewrite (file_exists_same_files _ _ _ Hfiles). apply file_exists_unlink_same.
    + intros p Hp. rewrite (file_exists_same_files _ _ _ Hfiles).
      unfold after_cleanup. rewrite file_exists_unlink_other by exact Hp.
      apply file_exists_same_files.
      rewrite !close_suppressed_files. reflexivity.
Qed.

End ReleaseExport.

End Release.

Section AppDemo.
Import PyFloat Demo DemoApp.

(** X16 on the toy engine: no reader is left open. *)
Lemma get_video_metadata_closes_clip_witness :
  file_exists "video.mp4" w0 = true /\
  snd (get_video_metadata (toy_env true) "video.mp4" w0) = w0.
Proof.
  split; [reflexivity|].
  exact (proj1 (get_video_metadata_closes_clip (toy_env true) "video.mp4" w0 eq_refl)
           _ _ eq_refl).
Defined.

(** X13 on the engine whose encoder succeeds: no reader is left open,
    the temporary audio file is gone and the output is there. *)
Lemma export_releases_resources_witness :
  snd (export_vertical_clip (toy_env true) "video.mp4" minus5 f25_1 "out" (1080, 1920)
         "medium" "128k" w0)
  = mkWorld ["out/short_video_0_25.mp4"; "video.mp4"] 0%nat /\
  file_exists "/tmp/tmp0.m4a"
    (snd (export_vertical_clip (toy_env true) "video.mp4" minus5 f25_1 "out" (1080, 1920)
            "medium" "128k" w0)) = false.
Proof.
  destruct (proj2 (export_releases_resources (toy_env true) "video.mp4" minus5 f25_1 "out"
                     (1080, 1920) "medium" "128k" w0 _ _ _ tt _ _ _
                     eq_refl eq_refl eq_refl eq_refl)
              _ _ (Ok tt) _ eq_refl eq_refl) as (H1 & H2 & _).
  split; [exact H1|exact H2].
Defined.


(** X12 on a clip that is already 1080x1920: it is only resized. *)
Lemma transform_without_crop_witness :
  _apply_vertical_transform (toy_env true) vertical_clip (1080, 1920)
  = clip_resize (toy_env true) vertical_clip (1080, 1920) /\
  _apply_vertical_transform (toy_env true) vertical_clip (1080, 0) = Err InvalidDimensions.
Proof.
  split.
  - eapply (proj1 (transform_without_crop (toy_env true) vertical_clip 1080 1920));
      reflexivity.
  - apply (proj2 (transform_without_crop (toy_env true) vertical_clip 1080 0)).
    right. discriminate.
Defined.


(** X9 on the toy engine: choosing video.mp4 drops the clip generated
    before, sets the range to (0.0, 30.0) and keeps the theme. *)
Lemma update_source_session_witness :
  exists session',
    _update_source (toy_env true) "video.mp4" "Demo" session0 w0 = (Ok tt, session', w0) /\
    dict_get session' "clip_range" = Some (SRange (zero, lit_30)) /\
    dict_get session' "generated_clip" = None /\
    dict_get session' "theme" = Some (SStr "dark").
Proof.
  destruct (proj2 (update_source_session (toy_env true) "video.mp4" "Demo" session0 w0)
              _ _ eq_refl) as (s & H1 & _ & _ & _ & H5 & H6 & H7).
  exists s. split; [exact H1|]. split; [exact H5|]. split; [exact H6|].
  rewrite H7 by discriminate. reflexivity.
Defined.


End AppDemo.

(** ** Rounding is monotone *)

Module Rounding.
Import PyFloat FloatFacts.

Lemma digits2_pos_le (m : positive) (k : Z) :
  Zpos m < 2 ^ k -> Zpos (digits2_pos m) <= k.
Proof.
  intros H. pose proof (digits2_pos_bounds m) as [Hlo _].
  destruct (Z_le_gt_dec (Zpos (digits2_pos m)) k) as [|Hgt]; trivial.
  destruct (Z_lt_le_dec k 0) as [Hk|Hk].
  - rewrite Z.pow_neg_r in H by trivial. lia.
  - assert (2 ^ k <= 2 ^ (Zpos (digits2_pos m) - 1)) by (apply Z.pow_le_mono_r; lia).
    lia.
Qed.

(** The number of binary digits of a mantissa that is not negative. *)
Lemma Zdigits2_bounds (m : Z) :
  0 <= m -> 0 <= Zdigits2 m /\ m < 2 ^ Zdigits2 m /\ (0 < m -> 2 ^ (Zdigits2 m - 1) <= m).
Proof.
  destruct m as [|p|p]; try lia; intros _; cbn [Zdigits2].
  - simpl. lia.
  - pose proof (digits2_pos_bounds p). lia.
Qed.

Lemma Zdigits2_le (m k : Z) : 0 <= m -> 0 <= k -> m < 2 ^ k -> Zdigits2 m <= k.
Proof.
  destruct m as [|p|p]; try lia; intros _ Hk H; cbn [Zdigits2]; trivial.
  apply digits2_pos_le; trivial.
Qed.

Lemma Zdigits2_ge (m k : Z) : 2 ^ (k - 1) <= m -> 0 < m -> k <= Zdigits2 m.
Proof.
  destruct m as [|p|p]; try lia; intros H _; cbn [Zdigits2].
  apply digits2_pos_ge; trivial.
Qed.

Lemma valid_exponent_max (s : bool) (m : positive) (e : Z) :
  valid (S754_finite s m e) = true -> e <= 971.
Proof.
  unfold valid, valid_binary, bounded, prec, emax.
  intros H; apply andb_prop in H; destruct H as [_ H]; apply Z.leb_le in H. lia.
Qed.

Lemma loc_of_shr_record_of_loc (m : Z) (l : location) :
  loc_of_shr_record (shr_record_of_loc m l) = l.
Proof. destruct l as [|[ | | ]]; reflexivity. Qed.

Lemma round_nearest_even_le (m : Z) (l : location) : round_nearest_even m l <= m + 1.
Proof.
  destruct l as [|[ | | ]]; simpl; try lia.
  destruct (Z.even m); lia.
Qed.

(** *** Shifting out zeros is exact *)

Lemma shr_1_exact (r : shr_record) :
  (shr_r r = false /\ shr_s r = false) -> 0 <= shr_m r -> shr_m r mod 2 = 0 -> (shr_r (shr_1 r) = false /\ shr_s (shr_1 r) = false).
Proof.
  destruct r as [m r s]; cbn [shr_m shr_r shr_s].
  intros [-> ->] Hm Hmod.
  destruct m as [|[p|p|]|p]; cbn [shr_1 shr_r shr_s]; try lia; try (split; reflexivity).
  - rewrite Pos2Z.inj_xI in Hmod.
    rewrite Z.add_comm, Z.mul_comm, Z.mod_add in Hmod by lia. discriminate.
  - discriminate.
Qed.

Lemma iter_pos_iter {A : Type} (f : A -> A) (n : positive) (x : A) :
  iter_pos f n x = Pos.iter f x n.
Proof.
  revert x. induction n as [n IH|n IH|]; intros x; simpl; trivial.
  - rewrite !IH, <- !Pos.iter_swap. reflexivity.
  - rewrite !IH. reflexivity.
Qed.

Lemma iter_shr_1_exact (n : positive) (r : shr_record) :
  (shr_r r = false /\ shr_s r = false) -> 0 <= shr_m r -> shr_m r mod 2 ^ Zpos n = 0 ->
  (shr_r (iter_pos shr_1 n r) = false /\ shr_s (iter_pos shr_1 n r) = false).
Proof.
  rewrite iter_pos_iter.
  revert r. induction n as [|n IH] using Pos.peano_ind; intros r Hex Hm Hmod.
  - apply shr_1_exact; trivial.
  - rewrite Pos.iter_succ_r.
    rewrite Pos2Z.inj_succ, Z.pow_succ_r in Hmod by lia.
    assert (H2 : shr_m r mod 2 = 0).
    { apply Z.mod_divide in Hmod; [|lia]. apply Z.mod_divide; [lia|].
      destruct Hmod as [k Hk]. exists (k * 2 ^ Zpos n). lia. }
    apply IH.
    + apply shr_1_exact; trivial.
    + apply shr_1_nonneg; trivial.
    + rewrite shr_1_half by trivial.
      apply Z.mod_divide in Hmod; [|lia]. destruct Hmod as [k Hk].
      rewrite Hk. replace (k * (2 * 2 ^ Zpos n)) with (k * 2 ^ Zpos n * 2) by ring.
      rewrite Z.div_mul by lia. apply Z.mod_mul. lia.
Qed.

Lemma loc_of_exact_record (r : shr_record) :
  (shr_r r = false /\ shr_s r = false) -> loc_of_shr_record r = loc_Exact.
Proof. destruct r as [m r s]; intros [H1 H2]; simpl in *; subst; reflexivity. Qed.

Lemma shr_exact (m e n : Z) :
  0 <= m -> 0 < n -> m mod 2 ^ n = 0 ->
  loc_of_shr_record (fst (shr (shr_record_of_loc m loc_Exact) e n)) = loc_Exact.
Proof.
  intros Hm Hn Hmod. destruct n as [|p|p]; try lia. cbn [shr fst].
  apply loc_of_exact_record, iter_shr_1_exact; trivial. split; reflexivity.
Qed.

(** *** Rounding stays at or below a well-formed bound *)

(** The canonical exponent of a mantissa at or below a well-formed bound. *)
Lemma fexp_le_bound (m e : Z) (mb : positive) (eb : Z) :
  valid (S754_finite false mb eb) = true ->
  0 <= m -> e <= eb -> m <= Zpos mb * 2 ^ (eb - e) ->
  fexp prec emax (Zdigits2 m + e) <= eb.
Proof.
  intros V Hm He Hle.
  pose proof (valid_finite_fexp _ _ _ V) as Hcan.
  pose proof (digits2_pos_bounds mb) as [_ Hhi].
  rewrite fexp_unfold.
  assert (Zdigits2 m <= Zpos (digits2_pos mb) + (eb - e)).
  { apply Zdigits2_le; [trivial | lia |].
    rewrite Z.pow_add_r by lia.
    assert (0 < 2 ^ (eb - e)) by (apply Z.pow_pos_nonneg; lia). nia. }
  lia.
Qed.

Lemma pow2_split (a b : Z) : 0 <= a -> 0 <= b -> 2 ^ (a + b) = 2 ^ a * 2 ^ b.
Proof. intros; apply Z.pow_add_r; trivial. Qed.

(** The first shift and the rounding: a value at or below the bound (below
    it, or equal to it and exact) gives a mantissa at or below the bound. *)
Lemma round_first_le (M E : Z) (lx : location) (mb : positive) (eb : Z) :
  valid (S754_finite false mb eb) = true ->
  0 <= M -> E <= eb ->
  (M < Zpos mb * 2 ^ (eb - E) \/ (M = Zpos mb * 2 ^ (eb - E) /\ lx = loc_Exact)) ->
  forall r1 e1, shr_fexp prec emax M E lx = (r1, e1) ->
  let m2 := round_nearest_even (shr_m r1) (loc_of_shr_record r1) in
  0 <= m2 /\ e1 <= eb /\ m2 <= Zpos mb * 2 ^ (eb - e1).
Proof.
  intros V HM HE Hb r1 e1. unfold shr_fexp.
  assert (Hf : fexp prec emax (Zdigits2 M + E) <= eb).
  { apply (fexp_le_bound M E mb eb V HM HE). destruct Hb as [Hb|[Hb _]]; lia. }
  set (f := fexp prec emax (Zdigits2 M + E)) in *.
  destruct (Z_le_gt_dec (f - E) 0) as [Hn|Hn].
  - rewrite shr_noop by trivial. intros [= <- <-].
    rewrite loc_of_shr_record_of_loc, shr_record_of_loc_m. cbn zeta.
    pose proof (round_nearest_even_ge M lx). pose proof (round_nearest_even_le M lx).
    split; [lia|]. split; [exact HE|].
    destruct Hb as [Hb|[Hb ->]]; [lia|]. cbn [round_nearest_even]. lia.
  - pose proof (shr_div (shr_record_of_loc M lx) E (f - E)) as Hdiv.
    rewrite shr_record_of_loc_m in Hdiv. destruct (Hdiv HM ltac:(lia)) as [Hm He]. clear Hdiv.
    intros Hs. rewrite Hs in Hm, He. cbn [fst snd] in Hm, He. cbn zeta.
    assert (e1 = f) as -> by lia.
    assert (Hp : 0 < 2 ^ (f - E)) by (apply Z.pow_pos_nonneg; lia).
    assert (Hsplit : 2 ^ (eb - E) = 2 ^ (eb - f) * 2 ^ (f - E)).
    { rewrite <- pow2_split by lia. f_equal. lia. }
    assert (Hq : 0 <= 2 ^ (eb - f)) by (apply Z.pow_nonneg; lia).
    assert (Hm0 : 0 <= shr_m r1) by (rewrite Hm; apply Z.div_pos; lia).
    pose proof (round_nearest_even_ge (shr_m r1) (loc_of_shr_record r1)).
    pose proof (round_nearest_even_le (shr_m r1) (loc_of_shr_record r1)).
    split; [lia|]. split; [exact Hf|].
    destruct Hb as [Hb|[Hb ->]].
    + assert (shr_m r1 < Zpos mb * 2 ^ (eb - f)); [|lia].
      rewrite Hm. apply Z.div_lt_upper_bound; [lia|]. rewrite Hsplit in Hb. nia.
    + assert (Hmod : M mod 2 ^ (f - E) = 0).
      { rewrite Hb, Hsplit, Z.mul_assoc. apply Z.mod_mul. lia. }
      pose proof (shr_exact M E (f - E) HM ltac:(lia) Hmod) as Hex.
      rewrite Hs in Hex. cbn [fst] in Hex. rewrite Hex. cbn [round_nearest_even].
      rewrite Hm, Hb, Hsplit, Z.mul_assoc, Z.div_mul by lia. lia.
Qed.

(** The second shift keeps the mantissa at or below the bound. *)
Lemma round_finish_le (m2 e1 : Z) (mb : positive) (eb : Z) :
  valid (S754_finite false mb eb) = true ->
  0 <= m2 -> e1 <= eb -> m2 <= Zpos mb * 2 ^ (eb - e1) ->
  forall r e, shr_fexp prec emax m2 e1 loc_Exact = (r, e) ->
  0 <= shr_m r /\ e <= eb /\ shr_m r <= Zpos mb * 2 ^ (eb - e).
Proof.
  intros V Hm He Hb r e. unfold shr_fexp.
  pose proof (fexp_le_bound _ _ _ _ V Hm He Hb) as Hf.
  set (f := fexp prec emax (Zdigits2 m2 + e1)) in *.
  destruct (Z_le_gt_dec (f - e1) 0) as [Hn|Hn].
  - rewrite shr_noop by trivial. intros [= <- <-]. cbn [shr_record_of_loc shr_m]. lia.
  - pose proof (shr_div (shr_record_of_loc m2 loc_Exact) e1 (f - e1)) as Hdiv.
    rewrite shr_record_of_loc_m in Hdiv. destruct (Hdiv Hm ltac:(lia)) as [Hq Hx].
    intros Hs. rewrite Hs in Hq, Hx. cbn [fst snd] in Hq, Hx.
    assert (e = f) as -> by lia.
    assert (Hp : 0 < 2 ^ (f - e1)) by (apply Z.pow_pos_nonneg; lia).
    assert (Hsplit : 2 ^ (eb - e1) = 2 ^ (eb - f) * 2 ^ (f - e1)).
    { rewrite <- pow2_split by lia. f_equal. lia. }
    rewrite Hq. split; [apply Z.div_pos; lia|]. split; [exact Hf|].
    apply Z.div_le_upper_bound; [lia|]. rewrite Hsplit in Hb. nia.
Qed.

(** Rounding a value at or below a well-formed bound (below it, or equal
    to it and exact) gives a zero or a finite value at or below the
    bound. *)
Lemma binary_round_aux_le (M E : Z) (lx : location) (mb : positive) (eb : Z) :
  valid (S754_finite false mb eb) = true ->
  0 <= M -> E <= eb ->
  (M < Zpos mb * 2 ^ (eb - E) \/ (M = Zpos mb * 2 ^ (eb - E) /\ lx = loc_Exact)) ->
  binary_round_aux prec emax false M E lx = S754_zero false \/
  exists m e, binary_round_aux prec emax false M E lx = S754_finite false m e /\
              e <= eb /\ Zpos m <= Zpos mb * 2 ^ (eb - e).
Proof.
  intros V HM HE Hb. unfold binary_round_aux.
  pose proof (round_first_le M E lx mb eb V HM HE Hb) as S1.
  destruct (shr_fexp prec emax M E lx) as [r1 e1].
  destruct (S1 r1 e1 eq_refl) as (H0 & H1 & H2). clear S1.
  pose proof (round_finish_le _ _ _ _ V H0 H1 H2) as S2.
  destruct (shr_fexp prec emax _ e1 loc_Exact) as [r2 e2].
  destruct (S2 r2 e2 eq_refl) as (H3 & H4 & H5). clear S2.
  destruct (shr_m r2) as [|p|p]; [left; reflexivity| |lia].
  pose proof (valid_exponent_max _ _ _ V) as Hmax.
  replace (e2 <=? emax - prec) with true
    by (symmetry; apply Z.leb_le; unfold emax, prec; lia).
  right. exists p, e2. repeat split; trivial.
Qed.

(** The same, read with [SFcompare]. *)
Lemma binary_round_aux_le_compare (M E : Z) (lx : location) (mb : positive) (eb : Z) :
  valid (S754_finite false mb eb) = true ->
  0 <= M -> E <= eb ->
  (M < Zpos mb * 2 ^ (eb - E) \/ (M = Zpos mb * 2 ^ (eb - E) /\ lx = loc_Exact)) ->
  exists c, SFcompare (binary_round_aux prec emax false M E lx) (S754_finite false mb eb)
            = Some c /\ c <> Gt.
Proof.
  intros V HM HE Hb.
  destruct (binary_round_aux_le M E lx mb eb V HM HE Hb) as [->|(m & e & -> & He & Hm)].
  - exists Lt. split; [reflexivity|discriminate].
  - simpl. fold_pos_compare.
    destruct (Z.compare_spec e eb) as [->|Hlt|Hgt]; try lia.
    + rewrite Z.sub_diag, Z.pow_0_r, Z.mul_1_r in Hm.
      destruct (Pos.compare_spec m mb) as [?|?|?]; try lia.
      * exists Eq. split; [reflexivity|discriminate].
      * exists Lt. split; [reflexivity|discriminate].
    + exists Lt. split; [reflexivity|discriminate].
Qed.

(** *** Rounding stays at or above a well-formed bound *)

(** Rounding a value at or above a well-formed bound gives a value that
    [SFcompare] places at or above the bound. *)
Lemma binary_round_aux_ge (M : positive) (E : Z) (lx : location) (mb : positive) (eb : Z) :
  valid (S754_finite false mb eb) = true ->
  E <= eb -> Zpos mb * 2 ^ (eb - E) <= Zpos M ->
  exists c, SFcompare (S754_finite false mb eb)
              (binary_round_aux prec emax false (Zpos M) E lx) = Some c
            /\ c <> Gt.
Proof.
  intros V HE HM.
  pose proof (valid_finite_fexp _ _ _ V) as Hcan.
  pose proof (valid_finite_bounds _ _ _ V) as (_ & Hemin & _).
  pose proof (digits2_pos_bounds mb) as [Hmb _].
  pose proof (digits2_pos_bounds M) as [HMlo _].
  assert (Hpow : 0 < 2 ^ (eb - E)) by (apply Z.pow_pos_nonneg; lia).
  assert (Hdig : Zpos (digits2_pos mb) + (eb - E) <= Zpos (digits2_pos M)).
  { apply digits2_pos_ge.
    replace (Zpos (digits2_pos mb) + (eb - E) - 1)
      with ((Zpos (digits2_pos mb) - 1) + (eb - E)) by lia.
    rewrite Z.pow_add_r by lia. nia. }
  set (f := fexp prec emax (Zpos (digits2_pos M) + E)).
  assert (Hf : f = Z.max (Zpos (digits2_pos M) + E - 53) (-1074)) by reflexivity.
  assert (Hfeb : eb <= f) by lia.
  assert (Hfpow : 0 < 2 ^ (f - E)) by (apply Z.pow_pos_nonneg; lia).
  assert (HMf : 2 ^ (f - E) <= Zpos M).
  { destruct (Z.max_spec (Zpos (digits2_pos M) + E - 53) (-1074)) as [[_ Hx]|[_ Hx]];
      rewrite <- Hf in Hx.
    - assert (f = eb) as -> by lia. nia.
    - apply Z.le_trans with (2 := HMlo). apply Z.pow_le_mono_r; lia. }
  unfold binary_round_aux, shr_fexp. cbn [Zdigits2]. fold f.
  destruct (shr_div (shr_record_of_loc (Zpos M) lx) E (f - E)) as [Hm1 He1];
    [rewrite shr_record_of_loc_m; lia | lia |].
  destruct (shr (shr_record_of_loc (Zpos M) lx) E (f - E)) as [r1 e1].
  cbn [fst snd] in Hm1, He1. rewrite shr_record_of_loc_m in Hm1.
  assert (e1 = f) as -> by lia. clear He1.
  assert (H1 : 1 <= shr_m r1).
  { rewrite Hm1. apply Z.div_le_lower_bound; lia. }
  assert (H1d : f = eb -> Zpos mb <= shr_m r1).
  { intros ->. rewrite Hm1. apply Z.div_le_lower_bound; lia. }
  pose proof (round_nearest_even_ge (shr_m r1) (loc_of_shr_record r1)) as H2.
  set (m2 := round_nearest_even (shr_m r1) (loc_of_shr_record r1)) in *.
  destruct m2 as [|p2|p2] eqn:Em2; try lia.
  cbn [Zdigits2]. rewrite fexp_unfold.
  set (n2 := Z.max (Zpos (digits2_pos p2) + f - 53) (-1074) - f).
  destruct (Z_le_gt_dec n2 0) as [Hn2|Hn2].
  - rewrite shr_noop by trivial. cbn [shr_record_of_loc shr_m].
    destruct (f <=? emax - prec).
    + simpl. fold_pos_compare.
      destruct (Z.compare_spec eb f) as [Hx|Hx|Hx]; try lia.
      * destruct (Pos.compare_spec mb p2) as [Hy|Hy|Hy].
        -- exists Eq; split; [reflexivity|discriminate].
        -- exists Lt; split; [reflexivity|discriminate].
        -- specialize (H1d (eq_sym Hx)). lia.
      * exists Lt; split; [reflexivity|discriminate].
    + exists Lt; split; [reflexivity|discriminate].
  - destruct (shr_div (shr_record_of_loc (Zpos p2) loc_Exact) f n2) as [Hm3 He3];
      [simpl; lia | lia |].
    destruct (shr (shr_record_of_loc (Zpos p2) loc_Exact) f n2) as [r3 e3].
    cbn [fst snd] in Hm3, He3. cbn [shr_record_of_loc shr_m] in Hm3.
    pose proof (digits2_pos_bounds p2) as [Hp2 _].
    assert (Hn2' : n2 = Zpos (digits2_pos p2) - 53) by lia.
    assert (H3 : 1 <= shr_m r3).
    { rewrite Hm3. apply Z.div_le_lower_bound; [apply Z.pow_pos_nonneg; lia|].
      rewrite Z.mul_1_r. apply Z.le_trans with (2 := Hp2).
      apply Z.pow_le_mono_r; lia. }
    destruct (shr_m r3) as [|p3|p3]; try lia.
    destruct (e3 <=? emax - prec).
    + simpl. destruct (Z.compare_spec eb e3) as [Hx|Hx|Hx]; try lia.
      exists Lt; split; [reflexivity|discriminate].
    + exists Lt; split; [reflexivity|discriminate].
Qed.

(** *** What rounding returns is well formed *)

Lemma binary_round_aux_valid (M E : Z) (lx : location) :
  0 <= M -> E <= fexp prec emax (Zdigits2 M + E) ->
  valid (binary_round_aux prec emax false M E lx) = true.
Proof.
  intros HM HE. unfold binary_round_aux, shr_fexp.
  set (f := fexp prec emax (Zdigits2 M + E)) in *.
  assert (Hf : f = Z.max (Zdigits2 M + E - 53) (-1074)) by reflexivity.
  destruct (Zdigits2_bounds M HM) as (Hd0 & Hdhi & Hdlo).
  destruct (shr_div (shr_record_of_loc M lx) E (f - E)) as [Hm1 He1];
    [rewrite shr_record_of_loc_m; lia | lia |].
  destruct (shr (shr_record_of_loc M lx) E (f - E)) as [r1 e1].
  cbn [fst snd] in Hm1, He1. rewrite shr_record_of_loc_m in Hm1.
  assert (e1 = f) as -> by lia. clear He1.
  assert (Hp : 0 < 2 ^ (f - E)) by (apply Z.pow_pos_nonneg; lia).
  assert (Hm0 : 0 <= shr_m r1) by (rewrite Hm1; apply Z.div_pos; lia).
  assert (Hhi : shr_m r1 < 2 ^ 53).
  { rewrite Hm1. apply Z.div_lt_upper_bound; [lia|].
    apply Z.lt_le_trans with (1 := Hdhi).
    rewrite <- pow2_split by lia. apply Z.pow_le_mono_r; lia. }
  assert (Hlo : -1074 < f -> 2 ^ 52 <= shr_m r1).
  { intros Hgt. assert (Hfe : f - E = Zdigits2 M - 53) by lia.
    assert (0 < M) by (destruct M; simpl in *; lia).
    rewrite Hm1. apply Z.div_le_lower_bound; [lia|].
    apply Z.le_trans with (2 := Hdlo ltac:(lia)).
    rewrite <- pow2_split by lia. apply Z.pow_le_mono_r; lia. }
  pose proof (round_nearest_even_ge (shr_m r1) (loc_of_shr_record r1)) as H2.
  pose proof (round_nearest_even_le (shr_m r1) (loc_of_shr_record r1)) as H3.
  set (m2 := round_nearest_even (shr_m r1) (loc_of_shr_record r1)) in *.
  destruct (Zdigits2_bounds m2 ltac:(lia)) as (Hd2 & Hd2hi & Hd2lo).
  rewrite fexp_unfold.
  destruct (Z.eq_dec m2 (2 ^ 53)) as [Heq|Hne].
  - assert (Hd54 : Zdigits2 m2 = 54).
    { apply Z.le_antisymm.
      - apply Zdigits2_le; [lia|lia|]. rewrite Heq. apply Z.pow_lt_mono_r; lia.
      - apply Zdigits2_ge; [|lia]. rewrite Heq. apply Z.le_refl. }
    rewrite Hd54.
    replace (Z.max (54 + f - 53) (-1074) - f) with 1 by lia.
    cbn [shr iter_pos]. rewrite shr_1_half by (rewrite shr_record_of_loc_m; lia).
    cbn [shr_record_of_loc shr_m]. rewrite Heq.
    change (2 ^ 53 / 2) with (Zpos (2 ^ 52)).
    destruct (f + 1 <=? emax - prec) eqn:Hb; [|reflexivity].
    unfold valid, valid_binary, bounded, canonical_mantissa. rewrite Hb.
    rewrite andb_true_r. apply Z.eqb_eq.
    change (Zpos (digits2_pos (2 ^ 52))) with 53. rewrite fexp_unfold. lia.
  - assert (Hm2 : m2 < 2 ^ 53) by lia.
    assert (Hd53 : Zdigits2 m2 <= 53) by (apply Zdigits2_le; lia).
    assert (Hdfull : -1074 < f -> Zdigits2 m2 = 53).
    { intros Hgt. apply Z.le_antisymm; trivial.
      apply Zdigits2_ge; [|lia]. specialize (Hlo Hgt). simpl. lia. }
    assert (Hn2 : Z.max (Zdigits2 m2 + f - 53) (-1074) - f <= 0).
    { destruct (Z_le_gt_dec f (-1074)); [lia|]. rewrite Hdfull by lia. lia. }
    rewrite shr_noop by trivial. cbn [shr_record_of_loc shr_m].
    destruct m2 as [|p2|p2] eqn:Em2; try reflexivity; try lia.
    destruct (f <=? emax - prec) eqn:Hb; [|reflexivity].
    unfold valid, valid_binary, bounded, canonical_mantissa. rewrite Hb.
    rewrite andb_true_r. apply Z.eqb_eq. rewrite fexp_unfold.
    cbn [Zdigits2] in Hn2, Hd53, Hdfull.
    destruct (Z_le_gt_dec f (-1074)); [lia|]. rewrite Hdfull by lia. lia.
Qed.

(** *** Well-formed inputs round to themselves *)

Lemma binary_round_aux_canonical (m : positive) (e : Z) :
  valid (S754_finite false m e) = true ->
  binary_round_aux prec emax false (Zpos m) e loc_Exact = S754_finite false m e.
Proof.
  intros V. pose proof (valid_finite_fexp _ _ _ V) as Hcan.
  pose proof (valid_exponent_max _ _ _ V) as Hmax.
  unfold binary_round_aux, shr_fexp. cbn [Zdigits2]. rewrite fexp_unfold.
  rewrite shr_noop by lia. cbn [shr_record_of_loc shr_m loc_of_shr_record round_nearest_even].
  cbn [Zdigits2]. rewrite fexp_unfold. rewrite shr_noop by lia.
  cbn [shr_record_of_loc shr_m].
  replace (e <=? emax - prec) with true
    by (symmetry; apply Z.leb_le; unfold emax, prec; lia).
  reflexivity.
Qed.

Lemma shl_align_exp (m : positive) (e e' : Z) : e' <= e -> snd (shl_align m e e') = e'.
Proof.
  intros H. unfold shl_align. destruct (e' - e) eqn:Hd; cbn [snd]; lia.
Qed.

(** An integer below [2^53] is a double: [float(n)] is exact. *)
Lemma of_Z_exact (n : positive) :
  Zpos n < 2 ^ 53 ->
  exists m e, of_Z (Zpos n) = S754_finite false m e /\
              valid (S754_finite false m e) = true /\
              -52 <= e <= 0 /\ Zpos m = Zpos n * 2 ^ (- e) /\ 2 ^ 52 <= Zpos m.
Proof.
  intros Hn. unfold of_Z, binary_normalize, binary_round.
  pose proof (digits2_pos_bounds n) as [Hlo Hhi].
  assert (Hd : Zpos (digits2_pos n) <= 53) by (apply digits2_pos_le; trivial).
  rewrite fexp_unfold.
  set (d := Zpos (digits2_pos n)) in *.
  assert (Hf : Z.max (d + 0 - 53) (-1074) = d - 53) by lia. rewrite Hf.
  pose proof (shl_align_value n 0 (d - 53) ltac:(lia)) as Hv.
  pose proof (shl_align_exp n 0 (d - 53) ltac:(lia)) as He.
  destruct (shl_align n 0 (d - 53)) as [mz ez]. cbn [fst snd] in Hv, He. subst ez.
  replace (0 - (d - 53)) with (53 - d) in Hv by lia.
  assert (Hsplit : 2 ^ (d - 1) * 2 ^ (53 - d) = 2 ^ 52).
  { rewrite <- pow2_split by lia. f_equal. lia. }
  assert (Hsplit' : 2 ^ d * 2 ^ (53 - d) = 2 ^ 53).
  { rewrite <- pow2_split by lia. f_equal. lia. }
  assert (Hp : 0 < 2 ^ (53 - d)) by (apply Z.pow_pos_nonneg; lia).
  assert (Hmz : 2 ^ 52 <= Zpos mz < 2 ^ 53) by (rewrite Hv; nia).
  assert (Hdz : Zpos (digits2_pos mz) = 53).
  { apply Z.le_antisymm; [apply digits2_pos_le; lia|apply digits2_pos_ge; simpl; lia]. }
  assert (V : valid (S754_finite false mz (d - 53)) = true).
  { unfold valid, valid_binary, bounded, canonical_mantissa.
    rewrite Hdz, fexp_unfold. apply andb_true_intro. split.
    - apply Z.eqb_eq. lia.
    - apply Z.leb_le. unfold emax, prec. lia. }
  exists mz, (d - 53). split; [apply binary_round_aux_canonical; exact V|].
  split; [exact V|]. split; [lia|]. split; [|lia].
  rewrite Hv. f_equal. f_equal. lia.
Qed.

(** *** Division *)

Lemma shiftl_match (m s : Z) :
  0 <= s ->
  match s with Z0 => m | Zpos _ => Z.shiftl m s | Zneg _ => 0 end = m * 2 ^ s.
Proof.
  intros Hs. destruct s as [|p|p]; try lia.
  apply Z.shiftl_mul_pow2. lia.
Qed.

(** What [SFdiv_core_binary] hands to the rounding: the quotient and
    remainder of the scaled mantissas. *)
Lemma div_core_spec (m1 m2 : positive) (e1 e2 : Z) :
  forall q E l, SFdiv_core_binary prec emax (Zpos m1) e1 (Zpos m2) e2 = (q, E, l) ->
  exists r,
    E = Z.min (fexp prec emax (Zpos (digits2_pos m1) + e1 - (Zpos (digits2_pos m2) + e2)))
          (e1 - e2) /\
    Zpos m1 * 2 ^ (e1 - e2 - E) = q * Zpos m2 + r /\ 0 <= r < Zpos m2 /\ 0 <= q /\
    (r = 0 -> l = loc_Exact) /\
    (-1074 < E -> 2 ^ 52 <= q).
Proof.
  intros q E l. unfold SFdiv_core_binary. cbn [Zdigits2].
  set (X := Zpos (digits2_pos m1) + e1 - (Zpos (digits2_pos m2) + e2)).
  set (E' := Z.min (fexp prec emax X) (e1 - e2)).
  set (s := e1 - e2 - E').
  assert (Hs : 0 <= s) by (unfold s, E'; lia).
  set (m' := match s with Z0 => Zpos m1 | Zpos _ => Z.shiftl (Zpos m1) s | Zneg _ => 0 end).
  assert (Hm' : m' = Zpos m1 * 2 ^ s) by (apply shiftl_match; exact Hs).
  pose proof (Z_div_mod m' (Zpos m2) ltac:(lia)) as Hdm.
  destruct (Z.div_eucl m' (Zpos m2)) as [q' r'] eqn:Hde.
  intros [= <- <- <-]. destruct Hdm as [Heq Hr].
  assert (Hp : 0 < 2 ^ s) by (apply Z.pow_pos_nonneg; lia).
  assert (Hq : 0 <= q') by nia.
  exists r'. split; [reflexivity|]. split; [fold s; lia|]. split; [lia|]. split; [exact Hq|].
  split.
  - intros ->. unfold new_location, new_location_even, new_location_odd.
    destruct (Z.even (Zpos m2)); reflexivity.
  - intros HE.
    pose proof (digits2_pos_bounds m1) as [H1lo _].
    pose proof (digits2_pos_bounds m2) as [_ H2hi].
    set (d1 := Zpos (digits2_pos m1)) in *. set (d2 := Zpos (digits2_pos m2)) in *.
    assert (HX : E' <= X - 53).
    { unfold E' in *. rewrite fexp_unfold in *. lia. }
    assert (Hk : 53 <= d1 + s - d2) by (unfold s, X in *; lia).
    assert (Hsplit : 2 ^ (d1 - 1) * 2 ^ s = 2 ^ (d1 + s - d2 - 1) * 2 ^ d2).
    { rewrite <- !pow2_split by lia. f_equal. lia. }
    assert (H52 : 2 ^ 52 <= 2 ^ (d1 + s - d2 - 1)) by (apply Z.pow_le_mono_r; lia).
    assert (Hlt : 2 ^ (d1 + s - d2 - 1) * Zpos m2 < (q' + 1) * Zpos m2) by nia.
    assert (2 ^ (d1 + s - d2 - 1) < q' + 1) by nia.
    lia.
Qed.

(** A quotient of two finite values is well formed. *)
Lemma div_valid (m1 m2 : positive) (e1 e2 : Z) :
  valid (S754_finite false m1 e1 / S754_finite false m2 e2)%pf = true.
Proof.
  unfold div, SFdiv. cbn [xorb].
  pose proof (div_core_spec m1 m2 e1 e2) as Hc.
  destruct (SFdiv_core_binary prec emax (Zpos m1) e1 (Zpos m2) e2) as [[q E] l].
  destruct (Hc q E l eq_refl) as (r & _ & _ & _ & Hq & _ & H52).
  apply binary_round_aux_valid; trivial.
  rewrite fexp_unfold. destruct (Z_le_gt_dec E (-1074)); [lia|].
  assert (53 <= Zdigits2 q); [|lia].
  apply Zdigits2_ge; [simpl; lia|]. specialize (H52 ltac:(lia)). lia.
Qed.

(** *** A double compared with a ratio of integers *)

Lemma of_ratio_pos (w h : positive) :
  of_ratio (Zpos w) h
  = (let '(q, E, l) := SFdiv_core_binary prec emax (Zpos w) 0 (Zpos h) 0 in
     binary_round_aux prec emax false q E l).
Proof. reflexivity. Qed.

(** A well-formed double below the double nearest to [w / h] is at most
    [w / h]. *)
Lemma ratio_above (w h md : positive) (ed : Z) :
  valid (S754_finite false md ed) = true ->
  SFcompare (S754_finite false md ed) (of_ratio (Zpos w) h) = Some Lt ->
  Zpos md * 2 ^ Z.max ed 0 * Zpos h <= Zpos w * 2 ^ Z.max (- ed) 0.
Proof.
  intros V Hcmp.
  destruct (Z_le_gt_dec (Zpos md * 2 ^ Z.max ed 0 * Zpos h) (Zpos w * 2 ^ Z.max (- ed) 0))
    as [|Hgt]; trivial.
  exfalso. apply compare_swap in Hcmp. cbn [CompOpp] in Hcmp.
  rewrite of_ratio_pos in Hcmp.
  pose proof (div_core_spec w h 0 0) as Hc.
  destruct (SFdiv_core_binary prec emax (Zpos w) 0 (Zpos h) 0) as [[q E] l].
  destruct (Hc q E l eq_refl) as (r & HE & Heq & Hr & Hq & _ & H52). clear Hc.
  replace (0 - 0 - E) with (- E) in Heq by lia.
  assert (HE0 : E <= 0) by lia. clear HE.
  pose proof (valid_finite_bounds _ _ _ V) as (Hmd & Hemin & _).
  set (a := Z.max ed 0) in *. set (b := Z.max (- ed) 0) in *.
  assert (HA : 0 < 2 ^ a) by (apply Z.pow_pos_nonneg; lia).
  assert (HB : 0 < 2 ^ b) by (apply Z.pow_pos_nonneg; lia).
  destruct (Z_le_gt_dec E ed) as [Hle|Hlt].
  - assert (HP : 0 < 2 ^ (- E - b)) by (apply Z.pow_pos_nonneg; lia).
    assert (H1 : 2 ^ (- E) = 2 ^ b * 2 ^ (- E - b)).
    { rewrite <- pow2_split by lia. f_equal. lia. }
    assert (H2 : 2 ^ (ed - E) = 2 ^ a * 2 ^ (- E - b)).
    { rewrite <- pow2_split by lia. f_equal. lia. }
    destruct (binary_round_aux_le_compare q E l md ed V Hq Hle) as (c & Hc & Hne).
    + left. rewrite H2. rewrite H1 in Heq.
      set (P := 2 ^ (- E - b)) in *. set (A := 2 ^ a) in *. set (B := 2 ^ b) in *.
      assert (Zpos w * B * P < Zpos md * A * Zpos h * P) by nia.
      assert (q * Zpos h < Zpos md * A * P * Zpos h) by nia.
      nia.
    + rewrite Hcmp in Hc. injection Hc as <-. congruence.
  - specialize (H52 ltac:(lia)).
    assert (Ha : a = 0) by lia. assert (Hb : b = - ed) by lia.
    rewrite Ha, Hb in Hgt. change (2 ^ 0) with 1 in Hgt.
    assert (H1 : 2 ^ (- ed) = 2 ^ (- E) * 2 ^ (E - ed)).
    { rewrite <- pow2_split by lia. f_equal. lia. }
    assert (H2 : 2 ^ 1 <= 2 ^ (E - ed)) by (apply Z.pow_le_mono_r; lia).
    change (2 ^ 1) with 2 in H2. change (2 ^ 53) with 9007199254740992 in Hmd.
    change (2 ^ 52) with 4503599627370496 in H52.
    rewrite H1 in Hgt.
    set (P := 2 ^ (E - ed)) in *. set (S := 2 ^ (- E)) in *.
    assert (4503599627370496 * Zpos h <= Zpos w * S) by nia.
    nia.
Qed.

(** A well-formed double above the double nearest to [w / h] is at least
    [w / h]. *)
Lemma ratio_below (w h md : positive) (ed : Z) :
  valid (S754_finite false md ed) = true ->
  SFcompare (of_ratio (Zpos w) h) (S754_finite false md ed) = Some Lt ->
  Zpos w * 2 ^ Z.max (- ed) 0 <= Zpos md * 2 ^ Z.max ed 0 * Zpos h.
Proof.
  intros V Hcmp.
  destruct (Z_le_gt_dec (Zpos w * 2 ^ Z.max (- ed) 0) (Zpos md * 2 ^ Z.max ed 0 * Zpos h))
    as [|Hgt]; trivial.
  exfalso.
  rewrite of_ratio_pos in Hcmp.
  pose proof (div_core_spec w h 0 0) as Hc.
  destruct (SFdiv_core_binary prec emax (Zpos w) 0 (Zpos h) 0) as [[q E] l].
  destruct (Hc q E l eq_refl) as (r & HE & Heq & Hr & Hq & _ & H52). clear Hc.
  replace (0 - 0 - E) with (- E) in Heq by lia.
  assert (HE0 : E <= 0) by lia. clear HE.
  pose proof (valid_finite_bounds _ _ _ V) as (Hmd & Hemin & _).
  set (a := Z.max ed 0) in *. set (b := Z.max (- ed) 0) in *.
  assert (HA : 0 < 2 ^ a) by (apply Z.pow_pos_nonneg; lia).
  assert (HB : 0 < 2 ^ b) by (apply Z.pow_pos_nonneg; lia).
  destruct (Z_le_gt_dec E ed) as [Hle|Hlt].
  - assert (HP : 0 < 2 ^ (- E - b)) by (apply Z.pow_pos_nonneg; lia).
    assert (H1 : 2 ^ (- E) = 2 ^ b * 2 ^ (- E - b)).
    { rewrite <- pow2_split by lia. f_equal. lia. }
    assert (H2 : 2 ^ (ed - E) = 2 ^ a * 2 ^ (- E - b)).
    { rewrite <- pow2_split by lia. f_equal. lia. }
    assert (Hqb : Zpos md * 2 ^ (ed - E) <= q).
    { rewrite H2. rewrite H1 in Heq.
      set (P := 2 ^ (- E - b)) in *. set (A := 2 ^ a) in *. set (B := 2 ^ b) in *.
      assert (Zpos md * A * Zpos h * P < Zpos w * B * P) by nia.
      assert (Zpos md * A * P * Zpos h < (q + 1) * Zpos h) by nia.
      nia. }
    assert (H0 : 0 < 2 ^ (ed - E)) by (apply Z.pow_pos_nonneg; lia).
    destruct q as [|q|q]; try lia.
    destruct (binary_round_aux_ge q E l md ed V Hle Hqb) as (c & Hc & Hne).
    apply compare_swap in Hcmp. cbn [CompOpp] in Hcmp. congruence.
  - specialize (H52 ltac:(lia)).
    assert (V' : valid (S754_finite false (2 ^ 52) E) = true).
    { unfold valid, valid_binary, bounded, canonical_mantissa.
      change (Zpos (digits2_pos (2 ^ 52))) with 53. rewrite fexp_unfold.
      apply andb_true_intro. split; [apply Z.eqb_eq; lia|].
      apply Z.leb_le. unfold emax, prec. lia. }
    destruct q as [|q|q]; try (simpl in H52; lia).
    destruct (binary_round_aux_ge q E l (2 ^ 52) E V' ltac:(lia)) as (c & Hc & Hne).
    { rewrite Z.sub_diag. change (2 ^ 0) with 1. simpl in H52 |- *. lia. }
    destruct (binary_round_aux prec emax false (Zpos q) E l) as [s|s| |s ms es];
      simpl in Hc, Hcmp; try congruence.
    + destruct s; congruence.
    + destruct s; [congruence|].
      destruct (Z.compare_spec E es) as [Hx|Hx|Hx].
      * subst es. destruct (Z.compare_spec E ed); try lia; congruence.
      * destruct (Z.compare_spec es ed); try lia; congruence.
      * congruence.
Qed.

(** Rounding to an integer a value that is at most the integer [N]. *)
Lemma nearest_even_le (m e N : Z) :
  0 <= m -> e <= 0 -> m <= N * 2 ^ (- e) -> Py.nearest_even m e <= N.
Proof.
  intros Hm He H. unfold Py.nearest_even.
  destruct (Z.leb_spec 0 e) as [He0|He0].
  - assert (e = 0) as -> by lia. change (2 ^ (- 0)) with 1 in H. change (2 ^ 0) with 1. lia.
  - set (d := 2 ^ (- e)) in *.
    assert (Hd : 0 < d) by (apply Z.pow_pos_nonneg; lia).
    pose proof (Z.div_mod m d ltac:(lia)) as Hdm.
    pose proof (Z.mod_pos_bound m d Hd) as Hr.
    assert (Hq : m / d <= N) by (apply Z.div_le_upper_bound; lia).
    destruct (Z.eq_dec (m / d) N) as [Heq|Hne].
    + assert (Hz : m mod d = 0) by nia. rewrite Hz.
      replace (2 * 0 ?= d) with Lt by (symmetry; apply Z.compare_lt_iff; lia). lia.
    + destruct (2 * (m mod d) ?= d); try lia.
      destruct (Z.even (m / d)); lia.
Qed.

(** *** The sides of a crop *)

(** The new width [round(height * dest_ratio)] of a horizontal crop is
    at most the width. *)
Lemma crop_width_le (w h : positive) (dest : float) (n : Z) :
  Zpos w < 2 ^ 53 -> Zpos h < 2 ^ 53 ->
  valid dest = true -> signbit dest = false ->
  (of_ratio (Zpos w) h >? dest)%pf = true ->
  Py.round (of_Z (Zpos h) * dest)%pf = Ok n -> n <= Zpos w.
Proof.
  intros Hw Hh V Sd Hgt.
  destruct (of_Z_exact h Hh) as (mh & eh & Eh & Vh & Heh & Hmh & Hmh52).
  destruct (of_Z_exact w Hw) as (mw & ew & _ & Vw & Hew & Hmw & _).
  rewrite Eh.
  destruct dest as [sd|sd| |sd md ed]; cbn [signbit] in Sd; try subst sd.
  - intros [= <-]. lia.
  - exfalso. revert Hgt. unfold gtb, ltb, SFltb.
    destruct (of_ratio (Zpos w) h) as [s|s| |s m e]; simpl; try discriminate;
      destruct s; discriminate.
  - exfalso. revert Hgt. unfold gtb, ltb, SFltb.
    destruct (of_ratio (Zpos w) h) as [s|s| |s m e]; simpl; discriminate.
  - assert (Hcmp : SFcompare (S754_finite false md ed) (of_ratio (Zpos w) h) = Some Lt).
    { revert Hgt. unfold gtb, ltb, SFltb.
      destruct (SFcompare (S754_finite false md ed) (of_ratio (Zpos w) h)) as [[ | | ]|];
        try discriminate. reflexivity. }
    pose proof (ratio_above w h md ed V Hcmp) as P1.
    pose proof (valid_finite_bounds _ _ _ Vw) as (Hmw53 & _ & _).
    set (a := Z.max ed 0) in *. set (b := Z.max (- ed) 0) in *.
    set (u := - eh) in *. set (v := - ew) in *.
    assert (HA : 0 < 2 ^ a) by (apply Z.pow_pos_nonneg; lia).
    assert (HB : 0 < 2 ^ b) by (apply Z.pow_pos_nonneg; lia).
    assert (HU : 0 < 2 ^ u) by (apply Z.pow_pos_nonneg; lia).
    assert (HV : 0 < 2 ^ v) by (apply Z.pow_pos_nonneg; lia).
    change (2 ^ 52) with 4503599627370496 in Hmh52.
    change (2 ^ 53) with 9007199254740992 in Hmw53.
    assert (Hi : ed + v <= u).
    { destruct (Z_le_gt_dec (ed + v) u) as [|Hc]; trivial. exfalso.
      assert (Hp : 2 ^ (b + u + 1) <= 2 ^ (a + v)) by (apply Z.pow_le_mono_r; lia).
      rewrite !pow2_split in Hp by lia. change (2 ^ 1) with 2 in Hp.
      rewrite Hmh in Hmh52. rewrite Hmw in Hmw53.
      set (A := 2 ^ a) in *. set (B := 2 ^ b) in *.
      set (U := 2 ^ u) in *. set (W := 2 ^ v) in *.
      assert (H1 : A * Zpos h <= Zpos w * B) by nia.
      assert (H2 : A * (Zpos h * U) * W <= (Zpos w * W) * B * U) by nia.
      assert (H3 : A * 4503599627370496 * W <= A * (Zpos h * U) * W) by nia.
      assert (H4 : (Zpos w * W) * B * U < 9007199254740992 * B * U) by nia.
      nia. }
    unfold mul, SFmul. cbn [xorb].
    assert (Hb : Zpos (mh * md) <= Zpos mw * 2 ^ (ew - (eh + ed))).
    { rewrite Pos2Z.inj_mul, Hmh, Hmw.
      replace (ew - (eh + ed)) with (u - v - ed) by lia.
      assert (Hs1 : 2 ^ v * 2 ^ (u - v - ed) = 2 ^ b * 2 ^ (u - a)).
      { rewrite <- !pow2_split by lia. f_equal. lia. }
      assert (Hs2 : 2 ^ u = 2 ^ a * 2 ^ (u - a)).
      { rewrite <- pow2_split by lia. f_equal. lia. }
      assert (HP : 0 < 2 ^ (u - a)) by (apply Z.pow_pos_nonneg; lia).
      replace (Zpos w * 2 ^ v * 2 ^ (u - v - ed))
        with (Zpos w * (2 ^ v * 2 ^ (u - v - ed))) by ring.
      rewrite Hs1, Hs2.
      set (A := 2 ^ a) in *. set (B := 2 ^ b) in *. set (P := 2 ^ (u - a)) in *.
      assert (Zpos md * A * Zpos h * P <= Zpos w * B * P) by nia.
      nia. }
    destruct (binary_round_aux_le (Zpos (mh * md)) (eh + ed) loc_Exact mw ew Vw
                ltac:(lia) ltac:(lia))
      as [->|(m3 & e3 & -> & He3 & Hm3)].
    { apply Z.le_lteq in Hb. destruct Hb as [Hb|Hb]; [left; exact Hb|right; split; trivial]. }
    + intros [= <-]. lia.
    + cbn [Py.round cond_Zopp]. intros [= <-].
      apply nearest_even_le; [lia|lia|].
      rewrite Hmw in Hm3.
      replace (2 ^ (- e3)) with (2 ^ v * 2 ^ (ew - e3)); [lia|].
      rewrite <- pow2_split by lia. f_equal. lia.
Qed.

(** The new height [round(width / dest_ratio)] of a vertical crop is at
    most the height. *)
Lemma crop_height_le (w h : positive) (dest q : float) (n : Z) :
  Zpos w < 2 ^ 53 -> Zpos h < 2 ^ 53 ->
  valid dest = true -> signbit dest = false ->
  SFcompare (of_ratio (Zpos w) h) dest = Some Lt ->
  Py.float_truediv (of_Z (Zpos w)) dest = Ok q ->
  Py.round q = Ok n -> n <= Zpos h.
Proof.
  intros Hw Hh V Sd Hcmp.
  destruct (of_Z_exact h Hh) as (mh & eh & _ & Vh & Heh & Hmh & _).
  destruct (of_Z_exact w Hw) as (mw & ew & Ew & Vw & Hew & Hmw & _).
  rewrite Ew. unfold Py.float_truediv.
  destruct dest as [sd|sd| |sd md ed]; cbn [signbit] in Sd; try subst sd.
  - discriminate.
  - intros [= <-] [= <-]. lia.
  - exfalso. destruct (of_ratio (Zpos w) h) as [s|s| |s m e]; simpl in Hcmp; discriminate.
  - change ((S754_finite false md ed =? zero)%pf) with false. cbv iota.
    intros [= <-].
    pose proof (ratio_below w h md ed V Hcmp) as P2.
    pose proof (valid_finite_bounds _ _ _ Vh) as (Hmh53 & _ & _).
    unfold div, SFdiv. cbn [xorb].
    pose proof (div_core_spec mw md ew ed) as Hc.
    destruct (SFdiv_core_binary prec emax (Zpos mw) ew (Zpos md) ed) as [[Q E2] l2].
    destruct (Hc Q E2 l2 eq_refl) as (r2 & HE2 & Heq & Hr2 & HQ & Hex & H52). clear Hc.
    assert (Hs2 : 0 <= ew - ed - E2) by lia. clear HE2.
    set (s2 := ew - ed - E2) in *.
    set (a := Z.max ed 0) in *. set (b := Z.max (- ed) 0) in *.
    set (u := - eh) in *. set (v := - ew) in *.
    assert (HA : 0 < 2 ^ a) by (apply Z.pow_pos_nonneg; lia).
    assert (HB : 0 < 2 ^ b) by (apply Z.pow_pos_nonneg; lia).
    assert (HU : 0 < 2 ^ u) by (apply Z.pow_pos_nonneg; lia).
    assert (HV : 0 < 2 ^ v) by (apply Z.pow_pos_nonneg; lia).
    assert (HS : 0 < 2 ^ s2) by (apply Z.pow_pos_nonneg; lia).
    change (2 ^ 53) with 9007199254740992 in Hmh53.
    change (2 ^ 52) with 4503599627370496 in H52.
    assert (Hi : E2 <= eh).
    { destruct (Z_le_gt_dec E2 eh) as [|Hc]; trivial. exfalso.
      specialize (H52 ltac:(lia)).
      assert (Hp : 2 ^ (a + v + s2 + 1) <= 2 ^ (b + u)) by (apply Z.pow_le_mono_r; lia).
      rewrite !pow2_split in Hp by lia. change (2 ^ 1) with 2 in Hp.
      rewrite Hmw in Heq. rewrite Hmh in Hmh53.
      set (A := 2 ^ a) in *. set (B := 2 ^ b) in *.
      set (U := 2 ^ u) in *. set (W := 2 ^ v) in *. set (S := 2 ^ s2) in *.
      assert (H1 : Q * Zpos md <= Zpos w * W * S) by lia.
      assert (H2 : Q * Zpos md * B <= Zpos md * A * Zpos h * W * S) by nia.
      assert (H3 : Q * B <= A * Zpos h * W * S) by nia.
      assert (H4 : Q * B * U <= A * (Zpos h * U) * W * S) by nia.
      assert (H5 : A * (Zpos h * U) * W * S < A * 9007199254740992 * W * S) by nia.
      assert (H6 : 4503599627370496 * (B * U) <= Q * B * U) by nia.
      nia. }
    assert (Hb : Q * Zpos md + r2 <= Zpos md * (Zpos mh * 2 ^ (eh - E2))).
    { rewrite <- Heq, Hmw, Hmh.
      replace (eh - E2) with (- u - E2) by lia.
      assert (Hk : 0 <= v + s2 - b) by lia.
      assert (Hs1 : 2 ^ v * 2 ^ s2 = 2 ^ b * 2 ^ (v + s2 - b)).
      { rewrite <- !pow2_split by lia. f_equal. lia. }
      assert (Hs3 : 2 ^ u * 2 ^ (- u - E2) = 2 ^ a * 2 ^ (v + s2 - b)).
      { rewrite <- !pow2_split by lia. f_equal. lia. }
      assert (HP : 0 < 2 ^ (v + s2 - b)) by (apply Z.pow_pos_nonneg; lia).
      replace (Zpos w * 2 ^ v * 2 ^ s2) with (Zpos w * (2 ^ v * 2 ^ s2)) by ring.
      replace (Zpos md * (Zpos h * 2 ^ u * 2 ^ (- u - E2)))
        with (Zpos md * Zpos h * (2 ^ u * 2 ^ (- u - E2))) by ring.
      rewrite Hs1, Hs3.
      set (A := 2 ^ a) in *. set (B := 2 ^ b) in *. set (P := 2 ^ (v + s2 - b)) in *.
      assert (Zpos w * B * P <= Zpos md * A * Zpos h * P) by nia.
      nia. }
    assert (HQb : Q <= Zpos mh * 2 ^ (eh - E2)) by nia.
    destruct (binary_round_aux_le Q E2 l2 mh eh Vh HQ Hi)
      as [->|(m3 & e3 & -> & He3 & Hm3)].
    { apply Z.le_lteq in HQb. destruct HQb as [HQb|HQb]; [left; exact HQb|].
      right. split; [exact HQb|]. apply Hex. nia. }
    + intros [= <-]. lia.
    + cbn [Py.round cond_Zopp]. intros [= <-].
      apply nearest_even_le; [lia|lia|].
      rewrite Hmh in Hm3.
      replace (2 ^ (- e3)) with (2 ^ u * 2 ^ (eh - e3)); [lia|].
      rewrite <- pow2_split by lia. f_equal. lia.
Qed.

End Rounding.

(** ** The crop box lies inside the frame *)

Section CropInside.
Import PyFloat FloatFacts FloatSigns Rounding.

Lemma int_truediv_valid (a b : Z) (x : float) :
  0 < a -> 0 < b -> Py.int_truediv a b = Ok x -> valid x = true.
Proof.
  intros Ha Hb. destruct a as [|pa|pa], b as [|pb|pb]; try lia.
  unfold Py.int_truediv. destruct (is_inf (of_ratio (Zpos pa) pb)); [discriminate|].
  intros [= <-]. exact (div_valid pa pb 0 0).
Qed.

Lemma crop_new_width_le (width height : Z) (src dest hf : float) (n : Z) :
  0 < width < 2 ^ 53 -> 0 < height < 2 ^ 53 ->
  valid dest = true -> signbit dest = false ->
  Py.int_truediv width height = Ok src -> (src >? dest)%pf = true ->
  Py.float_of_int height = Ok hf -> Py.round (hf * dest)%pf = Ok n ->
  n <= width.
Proof.
  intros [Hw Hw53] [Hh Hh53] Vd Sd.
  destruct width as [|w|w], height as [|h|h]; try lia.
  unfold Py.int_truediv, Py.float_of_int.
  destruct (is_inf (of_ratio (Zpos w) h)); [discriminate|]. intros [= <-] Hgt.
  destruct (is_inf (of_Z (Zpos h))); [discriminate|]. intros [= <-].
  exact (crop_width_le w h dest n Hw53 Hh53 Vd Sd Hgt).
Qed.

Lemma crop_new_height_le (width height : Z) (src dest wf q : float) (n : Z) :
  0 < width < 2 ^ 53 -> 0 < height < 2 ^ 53 ->
  valid dest = true -> has_sign false dest ->
  Py.int_truediv width height = Ok src ->
  Py.isclose src dest rel_tol_1e_3 = false -> (src >? dest)%pf = false ->
  Py.float_of_int width = Ok wf -> Py.float_truediv wf dest = Ok q ->
  Py.round q = Ok n ->
  n <= height.
Proof.
  intros [Hw Hw53] [Hh Hh53] Vd Sd Hsrc Hclose Hgt.
  pose proof (int_truediv_sign _ _ _ Hw Hh Hsrc) as Ss.
  assert (Hcmp : SFcompare src dest = Some Lt).
  { destruct (compare_total src dest (proj1 Ss) (proj1 Sd)) as [c Hc].
    unfold Py.isclose, eqb, SFeqb in Hclose. rewrite Hc in Hclose.
    unfold gtb, ltb, SFltb in Hgt. rewrite (compare_swap _ _ _ Hc) in Hgt.
    destruct c; simpl in Hclose, Hgt; try discriminate. exact Hc. }
  revert Hsrc Hcmp. clear Hclose Hgt Ss.
  destruct width as [|w|w], height as [|h|h]; try lia.
  unfold Py.int_truediv, Py.float_of_int.
  destruct (is_inf (of_ratio (Zpos w) h)); [discriminate|]. intros [= <-] Hcmp.
  destruct (is_inf (of_Z (Zpos w))); [discriminate|]. intros [= <-].
  exact (crop_height_le w h dest q n Hw53 Hh53 Vd (proj2 Sd) Hcmp).
Qed.

Lemma centered_inside (side n : Z) :
  0 <= n <= side ->
  0 <= (side - n) / 2 <= (side - n) / 2 + n /\ (side - n) / 2 + n <= side.
Proof.
  intros H.
  pose proof (Z.div_mod (side - n) 2 ltac:(lia)) as Hdm.
  pose proof (Z.mod_pos_bound (side - n) 2 ltac:(lia)) as Hr.
  lia.
Qed.

(** X17: for a source frame whose sides are below 2^53, every box
    compute_crop_box returns lies inside the frame:
    0 <= x1 <= x2 <= width and 0 <= y1 <= y2 <= height, whatever the target
    resolution. *)
Theorem crop_box_inside_frame (width height target_width target_height : Z) (b : CropBox) :
  width < 2 ^ 53 -> height < 2 ^ 53 ->
  compute_crop_box width height target_width target_height = Ok b ->
  0 <= x1 b <= x2 b /\ x2 b <= width /\ 0 <= y1 b <= y2 b /\ y2 b <= height.
Proof.
  intros Hw53 Hh53. unfold compute_crop_box.
  destruct ((width <=? 0) || (height <=? 0) || (target_width <=? 0) || (target_height <=? 0))
    eqn:Hg; [discriminate|].
  rewrite !orb_false_iff in Hg. destruct Hg as [[[Hw Hh] Htw] Hth].
  apply Z.leb_gt in Hw, Hh, Htw, Hth.
  destruct (Py.int_truediv width height) as [sr|] eqn:Hsr; [|discriminate].
  destruct (Py.int_truediv target_width target_height) as [dr|] eqn:Hdr; [|discriminate].
  cbn [bind].
  pose proof (int_truediv_sign _ _ _ Htw Hth Hdr) as Sdr.
  pose proof (int_truediv_valid _ _ _ Htw Hth Hdr) as Vdr.
  destruct (Py.isclose sr dr rel_tol_1e_3) eqn:Hclose.
  { intros [= <-]. cbn [x1 x2 y1 y2]. lia. }
  destruct (sr >? dr)%pf eqn:Hgt.
  - destruct (Py.float_of_int height) as [hf|] eqn:Hhf; [|discriminate]. cbn [bind].
    destruct (Py.round (hf * dr)%pf) as [n|] eqn:Hn; [|discriminate]. cbn [bind].
    intros [= <-]. cbn [x1 x2 y1 y2].
    assert (Hn0 : 0 <= n).
    { eapply round_nonneg; [|exact Hn].
      apply mul_nonneg; [exact (float_of_int_sign _ _ Hh Hhf)|exact Sdr]. }
    assert (Hnw : n <= width).
    { apply (crop_new_width_le width height sr dr hf n); trivial; try lia. apply Sdr. }
    pose proof (centered_inside width n ltac:(lia)). lia.
  - destruct (Py.float_of_int width) as [wf|] eqn:Hwf; [|discriminate]. cbn [bind].
    destruct (Py.float_truediv wf dr) as [q|] eqn:Hq; [|discriminate]. cbn [bind].
    destruct (Py.round q) as [n|] eqn:Hn; [|discriminate]. cbn [bind].
    intros [= <-]. cbn [x1 x2 y1 y2].
    assert (Hn0 : 0 <= n).
    { eapply round_nonneg; [|exact Hn].
      unfold Py.float_truediv in Hq. destruct (dr =? zero)%pf; [discriminate|].
      injection Hq as <-.
      apply div_nonneg; [exact (float_of_int_sign _ _ Hw Hwf)|exact Sdr]. }
    assert (Hnh : n <= height).
    { apply (crop_new_height_le width height sr dr wf q n); trivial; lia. }
    pose proof (centered_inside height n ltac:(lia)). lia.
Qed.

(** X17 at compute_crop_box(1920, 1080, 1, 4000): the box is empty but
    inside the frame. *)
Lemma crop_box_inside_frame_witness :
  1920 < 2 ^ 53 /\ 1080 < 2 ^ 53 /\
  compute_crop_box 1920 1080 1 4000 = Ok (mkCropBox 960 0 960 1080) /\
  (0 <= 960 <= 960 /\ 960 <= 1920 /\ 0 <= 0 <= 1080 /\ 1080 <= 1080).
Proof.
  split; [reflexivity|]. split; [reflexivity|]. split; [vm_compute; reflexivity|].
  apply (crop_box_inside_frame 1920 1080 1 4000 (mkCropBox 960 0 960 1080));
    [reflexivity|reflexivity|vm_compute; reflexivity].
Defined.

End CropInside.

(** ** A source shorter than the minimum length *)

Section ShortSource.
Import PyFloat FloatFacts Rounding.





End ShortSource.
